(** * generate_deployment_pdf: a Markdown to PDF converter

    A shallow embedding of [scripts/generate_deployment_pdf.py] and the
    properties of its line formatter, paginator and PDF emitter.

    Python values are modelled as follows.
    - [str] is a sequence of Unicode code points ([list N]).
    - [bytes] is a sequence of octets ([list Byte.byte]).
    - [int] is [Z] where a value may be negative and [nat] where it is a
      length, an index or an object number.
    - [dict[int, bytes]] is a [gmap nat bytes] and a list written by index
      is a list with [<[i := x]>].
    - a call either returns or raises; see [outcome].
    - printing and writing a file are events of a run; see [run].

    The methods of [str], the patterns of [re] and [textwrap.wrap] are
    modelled from their behaviour in CPython, for the arguments the program
    gives them. *)

From Stdlib Require Import NArith ZArith Lia Ascii Strings.Byte.
From stdpp Require Import base option list strings gmap.

(** ** Strings and bytes *)

Definition char : Type := N.
Bind Scope N_scope with char.
Definition str : Type := list char.
Definition bytes : Type := list byte.

(** The text of an ASCII literal of the source, as a [str]. *)
Definition lit (s : String.string) : str :=
  map N_of_ascii (String.list_ascii_of_string s).
Arguments lit s%_string.

(** The text of an ASCII literal of the source, as [bytes]. *)
Definition blit (s : String.string) : bytes := String.list_byte_of_string s.
Arguments blit s%_string.

Definition LF : char := 10%N.
Definition CR : char := 13%N.
Definition TAB : char := 9%N.
Definition SPACE : char := 32%N.
Definition BACKSLASH : char := 92%N.
Definition LPAREN : char := 40%N.
Definition RPAREN : char := 41%N.
Definition BACKTICK : char := 96%N.
Definition HASH : char := 35%N.
Definition DASH : char := 45%N.
Definition STAR : char := 42%N.
Definition DOT : char := 46%N.

(** ** Outcomes of a call *)

Inductive exn : Type :=
  | ValueError
  | KeyError
  | UnicodeEncodeError
  | UnicodeDecodeError
  | IndexError
  | OSError.

(** [Unfinished] is the result of a loop of the model that ran out of its
    iteration budget; the totality lemmas below show it is never produced. *)
Inductive outcome (A : Type) : Type :=
  | Returns (a : A)
  | Raises (e : exn)
  | Unfinished.
Arguments Returns {A} a.
Arguments Raises {A} e.
Arguments Unfinished {A}.

(** Sequencing: an exception raised by [m] ends the computation. *)
Definition and_then {A B} (m : outcome A) (f : A → outcome B) : outcome B :=
  match m with
  | Returns a => f a
  | Raises e => Raises e
  | Unfinished => Unfinished
  end.

Notation "'let*' x ':=' m 'in' k" := (and_then m (λ x, k))
  (at level 10, x pattern, m at level 100, k at level 200).

(** ** [pdf_escape] *)

(** [text.replace(old, new)] for a pattern [old] of one character. *)
Definition replace_char (old : char) (new : str) (text : str) : str :=
  c ← text; if (c =? old)%N then new else [c].

Definition pdf_escape (text : str) : str :=
  replace_char RPAREN [BACKSLASH; RPAREN]
    (replace_char LPAREN [BACKSLASH; LPAREN]
      (replace_char BACKSLASH [BACKSLASH; BACKSLASH] text)).

(** What one character of the input becomes in the escaped text. *)
Definition escape_char (c : char) : str :=
  if (c =? BACKSLASH)%N then [BACKSLASH; BACKSLASH]
  else if (c =? LPAREN)%N then [BACKSLASH; LPAREN]
  else if (c =? RPAREN)%N then [BACKSLASH; RPAREN]
  else [c].

(** Reading an escaped text back: a backslash announces one literal
    character. *)
Fixpoint pdf_unescape (s : str) : str :=
  match s with
  | [] => []
  | c :: s' =>
      if (c =? BACKSLASH)%N then
        match s' with
        | [] => [c]
        | d :: s'' => d :: pdf_unescape s''
        end
      else c :: pdf_unescape s'
  end.

(** ** [paginate] *)

(** [range(0, stop, step)]: a zero step raises, a negative step gives the
    empty range, and a positive step gives the [ceil(stop / step)] indices
    [0, step, 2 * step, ...] below [stop]. *)
Definition py_range (stop : nat) (step : Z) : outcome (list nat) :=
  if (step =? 0)%Z then Raises ValueError
  else if (step <? 0)%Z then Returns []
  else
    let k := Z.to_nat step in
    Returns ((λ i, i * k) <$> seq 0 ((stop + k - 1) / k)).

(** [l[i:j]] for [0 <= i <= j]. *)
Definition slice {A} (l : list A) (i j : nat) : list A := take (j - i) (drop i l).

Definition paginate (lines : list str) (lines_per_page : Z) : outcome (list (list str)) :=
  match lines with
  | [] => Returns [[ [] ]]
  | _ =>
      let* indices := py_range (length lines) lines_per_page in
      Returns ((λ index, slice lines index (index + Z.to_nat lines_per_page)) <$> indices)
  end.

(** The pages [paginate] cuts out of [l] with page length [k], as a function
    of their number [m]. *)
Definition chunks {A} (k m : nat) (l : list A) : list (list A) :=
  (λ index, slice l index (index + k)) <$> ((λ i, i * k) <$> seq 0 m).

(** ** Character classes and the string methods the formatter uses *)

(** [str.isspace] on one character; also the class [\s] of [re] and the
    characters [str.strip] removes. *)
Definition isspace (c : char) : bool :=
  ((9 <=? c) && (c <=? 13) || (28 <=? c) && (c <=? 32)
   || (c =? 133) || (c =? 160) || (c =? 5760)
   || (8192 <=? c) && (c <=? 8202)
   || (c =? 8232) || (c =? 8233) || (c =? 8239) || (c =? 8287)
   || (c =? 12288))%N.

(** The line boundaries of [str.splitlines]. *)
Definition is_linebreak (c : char) : bool :=
  ((10 <=? c) && (c <=? 13) || (28 <=? c) && (c <=? 30)
   || (c =? 133) || (c =? 8232) || (c =? 8233))%N.

(** [textwrap._whitespace], the only characters [textwrap] splits at. *)
Definition is_wrap_space (c : char) : bool :=
  ((9 <=? c) && (c <=? 13) || (c =? 32))%N.

(** The tables of the Unicode database the formatter reads through [\d] and
    [str.upper]. They are not part of the program; the program is modelled
    over any tables that agree with Unicode on the two laws below. *)
Record unicode_data : Type := {
  isdecimal : char → bool;
  upper : str → str;
  isdecimal_ascii :
    ∀ c, (c < 128)%N → isdecimal c = ((48 <=? c) && (c <=? 57))%N;
  isdecimal_not_space : ∀ c, isdecimal c = true → isspace c = false
}.

(** The longest prefix of [s] whose characters satisfy [p], and the rest. *)
Fixpoint span (p : char → bool) (s : str) : str * str :=
  match s with
  | [] => ([], [])
  | c :: s' =>
      if p c then let '(a, b) := span p s' in (c :: a, b) else ([], s)
  end.

Definition lstrip (s : str) : str := (span isspace s).2.

Fixpoint rstrip (s : str) : str :=
  match s with
  | [] => []
  | c :: s' =>
      match rstrip s' with
      | [] => if isspace c then [] else [c]
      | r => c :: r
      end
  end.

Definition strip (s : str) : str := lstrip (rstrip s).

Fixpoint startswith (s prefix : str) {struct prefix} : bool :=
  match prefix, s with
  | [], _ => true
  | p :: prefix', c :: s' => (c =? p)%N && startswith s' prefix'
  | _ :: _, [] => false
  end.

(** [str.splitlines]: [cur] is the line read so far, in reverse. A carriage
    return directly followed by a line feed is one boundary, and there is no
    empty last line after a final boundary. *)
Fixpoint splitlines_from (cur : str) (s : str) : list str :=
  match s with
  | [] => match cur with [] => [] | _ => [reverse cur] end
  | c :: s' =>
      if (c =? CR)%N then
        match s' with
        | d :: s'' =>
            if (d =? LF)%N then reverse cur :: splitlines_from [] s''
            else reverse cur :: splitlines_from [] s'
        | [] => reverse cur :: splitlines_from [] s'
        end
      else if is_linebreak c then reverse cur :: splitlines_from [] s'
      else splitlines_from (c :: cur) s'
  end.

Definition splitlines (s : str) : list str := splitlines_from [] s.

(** [str.expandtabs(tabsize)] for a positive [tabsize]; [col] is the column
    reached on the current line. *)
Fixpoint expandtabs_from (tabsize col : nat) (s : str) : str :=
  match s with
  | [] => []
  | c :: s' =>
      if (c =? TAB)%N then
        let incr := tabsize - col mod tabsize in
        replicate incr SPACE ++ expandtabs_from tabsize (col + incr) s'
      else if (c =? LF)%N || (c =? CR)%N then
        c :: expandtabs_from tabsize 0 s'
      else c :: expandtabs_from tabsize (col + 1) s'
  end.

Definition expandtabs (tabsize : nat) (s : str) : str :=
  expandtabs_from tabsize 0 s.

(** ** [textwrap.wrap] with the options of [wrap_text]

    [break_long_words=True], [break_on_hyphens=False],
    [replace_whitespace=False], [drop_whitespace=True], and the defaults
    [expand_tabs=True], [tabsize=8], empty indents, no [max_lines]. *)

(** [wordsep_simple_re.split(text)] without its empty strings: the maximal
    runs of wrap spaces and of other characters, in order. *)
Fixpoint split_chunks (text : str) : list str :=
  match text with
  | [] => []
  | c :: text' =>
      match split_chunks text' with
      | (d :: chunk) :: rest =>
          if Bool.eqb (is_wrap_space c) (is_wrap_space d)
          then (c :: d :: chunk) :: rest
          else [c] :: (d :: chunk) :: rest
      | rest => [c] :: rest
      end
  end.

(** [chunk.strip() == ''] *)
Definition is_blank (chunk : str) : bool := forallb isspace chunk.

(** The inner loop of [_wrap_chunks]: chunks are moved to the current line
    as long as they fit. The stack of chunks has its top at the head. *)
Fixpoint fill_line (width : nat) (chunks cur_line : list str) (cur_len : nat)
  : list str * list str * nat :=
  match chunks with
  | [] => (chunks, cur_line, cur_len)
  | chunk :: rest =>
      if cur_len + length chunk <=? width
      then fill_line width rest (cur_line ++ [chunk]) (cur_len + length chunk)
      else (chunks, cur_line, cur_len)
  end.

(** [_handle_long_word] with [break_long_words] set and [break_on_hyphens]
    unset. It is called with [cur_len <= width]. *)
Definition handle_long_word (chunks cur_line : list str) (cur_len width : nat)
  : list str * list str :=
  let space_left := if width <? 1 then 1 else width - cur_len in
  match chunks with
  | chunk :: rest => (drop space_left chunk :: rest, cur_line ++ [take space_left chunk])
  | [] => (chunks, cur_line)
  end.

(** One pass of the outer loop of [_wrap_chunks], entered with chunks left. *)
Definition wrap_line (width : nat) (chunks lines : list str) : list str * list str :=
  let chunks :=
    match chunks with
    | chunk :: rest =>
        if is_blank chunk && bool_decide (lines ≠ []) then rest else chunks
    | [] => chunks
    end in
  let '(chunks, cur_line, cur_len) := fill_line width chunks [] 0 in
  let '(chunks, cur_line) :=
    match chunks with
    | chunk :: _ =>
        if width <? length chunk
        then handle_long_word chunks cur_line cur_len width
        else (chunks, cur_line)
    | [] => (chunks, cur_line)
    end in
  let cur_line :=
    match last cur_line with
    | Some chunk => if is_blank chunk then removelast cur_line else cur_line
    | None => cur_line
    end in
  match cur_line with
  | [] => (chunks, lines)
  | _ => (chunks, lines ++ [concat cur_line])
  end.

(** The outer loop of [_wrap_chunks]; [fuel] bounds the number of passes. *)
Fixpoint wrap_chunks_loop (fuel : nat) (width : nat) (chunks lines : list str)
  : outcome (list str) :=
  match chunks with
  | [] => Returns lines
  | _ =>
      match fuel with
      | O => Unfinished
      | S fuel' =>
          let '(chunks, lines) := wrap_line width chunks lines in
          wrap_chunks_loop fuel' width chunks lines
      end
  end.

(** Every pass removes a chunk or at least one character of a chunk. *)
Definition wrap_measure (chunks : list str) : nat :=
  length chunks + length (concat chunks).

Definition textwrap_wrap (text : str) (width : Z) : outcome (list str) :=
  let chunks := split_chunks (expandtabs 8 text) in
  if (width <=? 0)%Z then Raises ValueError
  else wrap_chunks_loop (wrap_measure chunks) (Z.to_nat width) chunks [].

Definition wrap_text (text : str) (width : Z) : outcome (list str) :=
  let* wrapped := textwrap_wrap text width in
  Returns (match wrapped with [] => [[]] | _ => wrapped end).

(** ** The regular expressions of the formatter

    Each pattern starts at the beginning of the line and ends in [\s+],
    a group of any number of [.] and [$]; that group is written [(..)] in
    the comments below. The matchers follow the greedy first choice of every
    repetition. Giving characters back never helps to match: a character of
    [\s*] is not a digit, a bullet mark or a [#]; a digit is not a dot; and
    a space given back by [\s+] only makes the text [.*] has to cover
    longer. *)

(** The group of [.] and [$] at the end of a pattern: [.] is any character
    but a line feed, and [$] is the end of the text or the place before a
    final line feed. *)
Definition dot_star_end (s : str) : option str :=
  let '(a, b) := span (λ c, negb (c =? LF)%N) s in
  match b with
  | [] => Some a
  | [_] => Some a
  | _ => None
  end.

(** [\s+(..)$]; the result is group 2. *)
Definition spaces_then_rest (s : str) : option str :=
  let '(ws, rest) := span isspace s in
  match ws with
  | [] => None
  | _ => dot_star_end rest
  end.

(** [re.match(r"^(#{1,6})\s+(..)$", line)]: groups 1 and 2. *)
Definition match_heading (line : str) : option (str * str) :=
  let '(hashes, rest) := span (λ c, (c =? HASH)%N) line in
  if (1 <=? length hashes) && (length hashes <=? 6) then
    match spaces_then_rest rest with
    | Some text => Some (hashes, text)
    | None => None
    end
  else None.

(** [re.match(r"^(\s*[-*])\s+(..)$", line)]: groups 1 and 2. *)
Definition match_bullet (line : str) : option (str * str) :=
  let '(ws, rest) := span isspace line in
  match rest with
  | c :: rest' =>
      if (c =? DASH)%N || (c =? STAR)%N then
        match spaces_then_rest rest' with
        | Some text => Some (ws ++ [c], text)
        | None => None
        end
      else None
  | [] => None
  end.

Section formatter.
Variable U : unicode_data.

(** [re.match(r"^(\s*\d+\.)\s+(..)$", line)]: groups 1 and 2. *)
Definition match_numbered (line : str) : option (str * str) :=
  let '(ws, rest) := span isspace line in
  let '(digits, rest) := span (isdecimal U) rest in
  match digits, rest with
  | _ :: _, c :: rest' =>
      if (c =? DOT)%N then
        match spaces_then_rest rest' with
        | Some text => Some (ws ++ digits ++ [DOT], text)
        | None => None
        end
      else None
  | _, _ => None
  end.

Definition MAX_CHARS_PER_LINE : Z := 94.

(** The lines a list item adds: [prefix] before the first chunk and as many
    spaces before every other chunk. *)
Definition item_lines (prefix : str) (body_lines : list str) : list str :=
  imap (λ index chunk,
          (if index is O then prefix else replicate (length prefix) SPACE) ++ chunk)
       body_lines.

(** The body of the loop of [markdown_to_lines] for the input line [raw],
    from the state [(in_code_block, lines)] to the next state. *)
Definition process_line (state : bool * list str) (raw : str)
  : outcome (bool * list str) :=
  let '(in_code_block, lines) := state in
  let line := rstrip raw in
  let stripped := strip line in
  if startswith stripped (lit "```") then
    Returns (negb in_code_block, lines ++ [[]])
  else if in_code_block then
    let code_line := line in
    let* wrapped := wrap_text code_line (MAX_CHARS_PER_LINE - 4) in
    Returns (in_code_block,
             lines ++ ((λ w, match w with [] => [] | _ => lit "    " ++ w end) <$> wrapped))
  else match stripped with
  | [] => Returns (in_code_block, lines ++ [[]])
  | _ =>
  match match_heading line with
  | Some (_, text) =>
      let title := upper U (strip text) in
      let lines :=
        match last lines with
        | Some (_ :: _) => lines ++ [[]]
        | _ => lines
        end in
      let* wrapped := wrap_text title MAX_CHARS_PER_LINE in
      Returns (in_code_block, lines ++ wrapped ++ [[]])
  | None =>
  match match_bullet line with
  | Some (_, text) =>
      let body := strip text in
      let prefix := lit "- " in
      let* body_lines := wrap_text body (MAX_CHARS_PER_LINE - Z.of_nat (length prefix)) in
      Returns (in_code_block, lines ++ item_lines prefix body_lines)
  | None =>
  match match_numbered line with
  | Some (number, text) =>
      let prefix := number ++ [SPACE] in
      let body := strip text in
      let* body_lines := wrap_text body (MAX_CHARS_PER_LINE - Z.of_nat (length prefix)) in
      Returns (in_code_block, lines ++ item_lines prefix body_lines)
  | None =>
      let* wrapped := wrap_text stripped MAX_CHARS_PER_LINE in
      Returns (in_code_block, lines ++ wrapped)
  end end end end.

(** The [for] loop: the lines are processed in order and the first exception
    ends the loop. *)
Fixpoint process_lines (state : bool * list str) (raws : list str)
  : outcome (bool * list str) :=
  match raws with
  | [] => Returns state
  | raw :: raws' =>
      let* state := process_line state raw in
      process_lines state raws'
  end.

(** [while lines and lines[-1] == "": lines.pop()] *)
Fixpoint pop_trailing_blank (lines : list str) : list str :=
  match lines with
  | [] => []
  | l :: lines' =>
      match pop_trailing_blank lines' with
      | [] => match l with [] => [] | _ => [l] end
      | kept => l :: kept
      end
  end.

Definition markdown_to_lines (markdown : str) : outcome (list str) :=
  let* state := process_lines (false, []) (splitlines markdown) in
  Returns (pop_trailing_blank state.2).

End formatter.

(** ** Integers as decimal text, and the Latin-1 codec *)

(** The decimal digits of [n], most significant first, put before [acc];
    [fuel] bounds the number of digits. *)
Fixpoint decimal_from (fuel : nat) (n : nat) (acc : str) : str :=
  match fuel with
  | O => acc
  | S fuel' =>
      let acc := (48 + N.of_nat (n mod 10))%N :: acc in
      if n <? 10 then acc else decimal_from fuel' (n / 10) acc
  end.

(** [str(n)], which is also [f"{n}"], for an integer that is not negative.
    A number [n] has no more than [n + 1] digits. *)
Definition decimal (n : nat) : str := decimal_from (S n) n [].
Arguments decimal : simpl never.

(** [f"{n:010d}"]: the decimal text, with zeros in front up to ten
    characters. *)
Definition format_010d (n : nat) : str :=
  replicate (10 - length (decimal n)) 48%N ++ decimal n.

(** [sep.join(parts)] *)
Fixpoint join (sep : str) (parts : list str) : str :=
  match parts with
  | [] => []
  | [part] => part
  | part :: parts' => part ++ sep ++ join sep parts'
  end.

(** [value.encode("latin-1", errors="replace").decode("latin-1")]: every
    character above 255 becomes a question mark. *)
Definition to_latin1 (value : str) : str :=
  (λ c, if (c <? 256)%N then c else 63%N) <$> value.

(** [text.encode("latin-1")], which raises at a character above 255. *)
Fixpoint encode_latin1 (text : str) : outcome bytes :=
  match text with
  | [] => Returns []
  | c :: text' =>
      match Byte.of_N c with
      | Some b => let* rest := encode_latin1 text' in Returns (b :: rest)
      | None => Raises UnicodeEncodeError
      end
  end.

(** ** The PDF emitter *)

Definition PAGE_WIDTH : nat := 595.
Definition PAGE_HEIGHT : nat := 842.
Definition MARGIN_LEFT : nat := 50.
Definition MARGIN_TOP : nat := 50.
Definition MARGIN_BOTTOM : nat := 50.
Definition FONT_SIZE : nat := 10.
Definition LINE_HEIGHT : nat := 14.
Definition LINES_PER_PAGE : nat :=
  (PAGE_HEIGHT - MARGIN_TOP - MARGIN_BOTTOM) / LINE_HEIGHT.

Definition NL : byte := x0a.

(** The two commands [build_page_stream] appends for one line. *)
Definition line_commands (line : str) : list str :=
  let safe := pdf_escape (to_latin1 line) in
  [lit "(" ++ safe ++ lit ") Tj"; lit "T*"].

(** The list [commands] of [build_page_stream] when the loop is over. *)
Definition page_commands (page_lines : list str) : list str :=
  let commands :=
    [lit "BT";
     lit "/F1 " ++ decimal FONT_SIZE ++ lit " Tf";
     lit "1 0 0 1 " ++ decimal MARGIN_LEFT ++ lit " "
       ++ decimal (PAGE_HEIGHT - MARGIN_TOP) ++ lit " Tm";
     decimal LINE_HEIGHT ++ lit " TL"] in
  let commands := commands ++ (page_lines ≫= line_commands) in
  commands ++ [lit "ET"].

Definition build_page_stream (page_lines : list str) : outcome bytes :=
  encode_latin1 (join [LF] (page_commands page_lines) ++ [LF]).

(** The formatted texts of [generate_pdf], before they are encoded. *)
Definition length_line_text (stream_length : nat) : str :=
  lit "<< /Length " ++ decimal stream_length ++ lit " >>" ++ [LF]
  ++ lit "stream" ++ [LF].

Definition page_object_text (content_id : nat) : str :=
  lit "<< /Type /Page /Parent 2 0 R /MediaBox [0 0 " ++ decimal PAGE_WIDTH
  ++ lit " " ++ decimal PAGE_HEIGHT ++ lit "] "
  ++ lit "/Resources << /Font << /F1 3 0 R >> >> /Contents "
  ++ decimal content_id ++ lit " 0 R >>".

Definition page_tree_text (page_ids : list nat) : str :=
  let kids := join (lit " ") ((λ page_id, decimal page_id ++ lit " 0 R") <$> page_ids) in
  lit "<< /Type /Pages /Kids [ " ++ kids ++ lit " ] /Count "
  ++ decimal (length page_ids) ++ lit " >>".

Definition object_header_text (object_id : nat) : str :=
  decimal object_id ++ lit " 0 obj" ++ [LF].

Definition xref_line_text (size : nat) : str :=
  lit "xref" ++ [LF] ++ lit "0 " ++ decimal size ++ [LF].

Definition xref_entry_text (offset : nat) : str :=
  format_010d offset ++ lit " 00000 n " ++ [LF].

Definition trailer_text (size xref_offset : nat) : str :=
  lit "trailer" ++ [LF] ++ lit "<< /Size " ++ decimal size ++ lit " /Root 1 0 R >>"
  ++ [LF] ++ lit "startxref" ++ [LF] ++ decimal xref_offset ++ [LF]
  ++ lit "%%EOF" ++ [LF].

Definition FONT_OBJECT : bytes :=
  blit "<< /Type /Font /Subtype /Type1 /BaseFont /Helvetica >>".

Definition CATALOG_OBJECT : bytes := blit "<< /Type /Catalog /Pages 2 0 R >>".

(** The local variables of [generate_pdf] that the loop over the pages
    updates. *)
Record allocation : Type := {
  objects : gmap nat bytes;
  page_ids : list nat;
  max_object_id : nat
}.

(** The body of the loop over the pages. *)
Definition add_page (a : allocation) (page : list str) : outcome allocation :=
  let page_id := max_object_id a + 1 in
  let content_id := max_object_id a + 2 in
  let* stream := build_page_stream page in
  let* length_line := encode_latin1 (length_line_text (length stream)) in
  let with_content :=
    <[content_id := length_line ++ stream ++ blit "endstream"]> (objects a) in
  let* page_object := encode_latin1 (page_object_text content_id) in
  let with_page := <[page_id := page_object]> with_content in
  Returns {| objects := with_page;
             page_ids := page_ids a ++ [page_id];
             max_object_id := content_id |}.

Fixpoint add_pages (a : allocation) (pages : list (list str)) : outcome allocation :=
  match pages with
  | [] => Returns a
  | page :: pages' => let* a := add_page a page in add_pages a pages'
  end.

(** The objects of the document: the font, the pages with their content
    streams, the page tree and the catalog. *)
Definition allocate_objects (pages : list (list str)) : outcome allocation :=
  let with_font : gmap nat bytes := <[3 := FONT_OBJECT]> ∅ in
  let* a := add_pages {| objects := with_font; page_ids := []; max_object_id := 3 |} pages in
  let* page_tree := encode_latin1 (page_tree_text (page_ids a)) in
  let with_tree := <[2 := page_tree]> (objects a) in
  let with_catalog := <[1 := CATALOG_OBJECT]> with_tree in
  Returns {| objects := with_catalog;
             page_ids := page_ids a;
             max_object_id := max_object_id a |}.

(** The loop that writes the objects [object_ids] in order and notes where
    each one starts. A missing object raises [KeyError]. *)
Fixpoint write_objects (objects : gmap nat bytes) (object_ids : list nat)
    (output : bytes) (offsets : list nat) : outcome (bytes * list nat) :=
  match object_ids with
  | [] => Returns (output, offsets)
  | object_id :: object_ids' =>
      let offsets := <[object_id := length output]> offsets in
      let* header := encode_latin1 (object_header_text object_id) in
      let output := output ++ header in
      match objects !! object_id with
      | None => Raises KeyError
      | Some body =>
          let output := output ++ body in
          let output := output ++ [NL] ++ blit "endobj" ++ [NL] in
          write_objects objects object_ids' output offsets
      end
  end.

(** The loop that writes one entry of the cross-reference table for each of
    [object_ids]. An index outside [offsets] raises [IndexError]. *)
Fixpoint write_xref_entries (offsets : list nat) (object_ids : list nat)
    (output : bytes) : outcome bytes :=
  match object_ids with
  | [] => Returns output
  | object_id :: object_ids' =>
      match offsets !! object_id with
      | None => Raises IndexError
      | Some offset =>
          let* entry := encode_latin1 (xref_entry_text offset) in
          write_xref_entries offsets object_ids' (output ++ entry)
      end
  end.

(** What [generate_pdf] has computed when it has written the last object:
    the output so far, the offsets of the objects and the allocation. *)
Record layout : Type := {
  allocated : allocation;
  body : bytes;
  offsets : list nat
}.

Definition PDF_HEADER : bytes :=
  blit "%PDF-1.4" ++ [NL] ++ [x25; xe2; xe3; xcf; xd3] ++ [NL].

(** [generate_pdf] up to [xref_offset = len(output)]. *)
Definition write_body (pages : list (list str)) : outcome layout :=
  let* a := allocate_objects pages in
  let output := PDF_HEADER in
  let offsets := replicate (max_object_id a + 1) 0 in
  let* written :=
    write_objects (objects a) (seq 1 (max_object_id a)) output offsets in
  Returns {| allocated := a; body := written.1; offsets := written.2 |}.

(** [generate_pdf]; the result is the bytes it hands to
    [output_path.write_bytes]. *)
Definition generate_pdf (pages : list (list str)) : outcome bytes :=
  let* l := write_body pages in
  let max_id := max_object_id (allocated l) in
  let output := body l in
  let xref_offset := length output in
  let* xref_line := encode_latin1 (xref_line_text (max_id + 1)) in
  let output := output ++ xref_line in
  let output := output ++ blit "0000000000 65535 f " ++ [NL] in
  let* output := write_xref_entries (offsets l) (seq 1 max_id) output in
  let* trailer := encode_latin1 (trailer_text (max_id + 1) xref_offset) in
  Returns (output ++ trailer).

(** ** [main]

    A run of [main] reads [sys.argv] and the file system, and acts on the
    world by printing and by writing the output file. *)

(** The three messages [main] prints, with the values formatted into
    them. *)
Inductive message : Type :=
  | Usage
  | InputFileNotFound (input_path : str)
  | PdfGenerated (output_path : str) (pages : nat).

(** What [main] asks of the world: the results of [Path(p).exists()], of
    [Path(p).read_text(encoding="utf-8")], of [Path(p).write_bytes(data)]
    and of [print(m)]. Each of them can raise: [exists] re-raises every
    [OSError] other than a missing file (a name that is too long, a
    directory that cannot be searched), and [print] raises when standard
    output cannot encode or take the text. A path is given by the argument
    it was built from. *)
Record environment : Type := {
  path_exists : str → outcome bool;
  read_text : str → outcome str;
  write_bytes : str → bytes → outcome unit;
  print_message : message → outcome unit
}.

Inductive event : Type :=
  | Printed (m : message)
  | Written (path : str) (data : bytes).

(** A computation that acts on the world: the events so far, in order, and
    how the computation ended. *)
Definition run (A : Type) : Type := list event * outcome A.

Definition pure {A} (o : outcome A) : run A := ([], o).

Definition act (e : event) : run unit := ([e], Returns tt).

(** [print(m)]: the message is in the trace when [print] has returned. *)
Definition printing (env : environment) (m : message) : run unit :=
  match print_message env m with
  | Returns _ => ([Printed m], Returns tt)
  | Raises e => ([], Raises e)
  | Unfinished => ([], Unfinished)
  end.

Definition run_then {A B} (m : run A) (f : A → run B) : run B :=
  match m.2 with
  | Returns a => (m.1 ++ (f a).1, (f a).2)
  | Raises e => (m.1, Raises e)
  | Unfinished => (m.1, Unfinished)
  end.

Notation "'do*' x ':=' m 'in' k" := (run_then m (λ x, k))
  (at level 10, x pattern, m at level 100, k at level 200).

Section main.
Variable U : unicode_data.

Definition main (env : environment) (argv : list str) : run Z :=
  match argv with
  | [_; input_path; output_path] =>
      do* found := pure (path_exists env input_path) in
      if negb found then
        do* _ := printing env (InputFileNotFound input_path) in
        pure (Returns 1%Z)
      else
        do* markdown := pure (read_text env input_path) in
        do* lines := pure (markdown_to_lines U markdown) in
        do* pages := pure (paginate lines (Z.of_nat LINES_PER_PAGE)) in
        do* output := pure (generate_pdf pages) in
        do* _ := act (Written output_path output) in
        do* _ := pure (write_bytes env output_path output) in
        do* _ := printing env (PdfGenerated output_path (length pages)) in
        pure (Returns 0%Z)
  | _ =>
      do* _ := printing env Usage in
      pure (Returns 1%Z)
  end.

End main.

(** * Vocabulary of the properties *)

(** Tables for documents in ASCII: the ten digits, and the upper case of the
    twenty-six letters. On ASCII text they agree with Unicode. *)
Definition ascii_isdecimal (c : char) : bool := ((48 <=? c) && (c <=? 57))%N.

Definition ascii_upper (s : str) : str :=
  (λ c, if ((97 <=? c) && (c <=? 122))%N then (c - 32)%N else c) <$> s.

Lemma ascii_isdecimal_not_space c : ascii_isdecimal c = true → isspace c = false.
Proof.
  unfold ascii_isdecimal, isspace. intros H.
  apply andb_prop in H as [H1 H2].
  apply N.leb_le in H1. apply N.leb_le in H2.
  repeat match goal with
         | |- context [(?a <=? ?b)%N] => destruct (N.leb_spec a b); try lia
         | |- context [(?a =? ?b)%N] => destruct (N.eqb_spec a b); try lia
         end.
Qed.

Definition ascii_data : unicode_data := {|
  isdecimal := ascii_isdecimal;
  upper := ascii_upper;
  isdecimal_ascii := λ c _, eq_refl;
  isdecimal_not_space := ascii_isdecimal_not_space
|}.

(** A line that fits the configured maximum width. *)
Definition fits (l : str) : Prop := length l ≤ Z.to_nat MAX_CHARS_PER_LINE.

(** A line without white space at its end. *)
Definition no_trailing_space (l : str) : Prop := rstrip l = l.

Definition fence : str := lit "```".

(** The document made of a fence line, the line [code] and a fence line. *)
Definition fenced_code_document : str :=
  fence ++ [LF] ++ lit "code" ++ [LF] ++ fence.

(** A code block whose only line is ninety spaces and then ninety-one
    letters. *)
Definition wide_indent_document : str :=
  fence ++ [LF] ++ replicate 90 SPACE ++ replicate 91 120%N.

(** A numbered item behind ninety-one spaces. *)
Definition deep_numbered_document : str := replicate 91 SPACE ++ lit "1. x".

(** The shape of a numbered item outside a code block: white space [ws],
    the digits [ds], a dot, the white space [sp] and a body that starts with
    the character [b0], which is not white space. *)
Record numbered_shape (U : unicode_data) (line ws ds sp : str) (b0 : char) (body' : str)
  : Prop := {
  shape_line : line = ws ++ ds ++ [DOT] ++ sp ++ b0 :: body';
  shape_ws : forallb isspace ws = true;
  shape_ds : forallb (isdecimal U) ds = true;
  shape_ds_ne : ds ≠ [];
  shape_sp : forallb isspace sp = true;
  shape_sp_ne : sp ≠ [];
  shape_b0 : isspace b0 = false;
  shape_no_LF : LF ∉ b0 :: body'
}.

(** A decimal digit. *)
Definition is_digit (c : char) : bool := ((48 <=? c) && (c <=? 57))%N.

(** The number a text of decimal digits denotes. *)
Definition decimal_value (digits : str) : nat :=
  foldl (λ acc c, 10 * acc + N.to_nat (c - 48)) 0 digits.

(** A text that [encode("latin-1")] accepts, and its bytes. *)
Definition is_latin1 (text : str) : bool := forallb (λ c, (c <? 256)%N) text.

Definition latin1_byte (c : char) : byte := default x00 (Byte.of_N c).

Definition latin1_bytes (text : str) : bytes := latin1_byte <$> text.

(** The content stream of a page, and the bodies of its two objects. *)
Definition page_stream (page_lines : list str) : bytes :=
  latin1_bytes (join [LF] (page_commands page_lines) ++ [LF]).

Definition content_object (page_lines : list str) : bytes :=
  latin1_bytes (length_line_text (length (page_stream page_lines)))
  ++ page_stream page_lines ++ blit "endstream".

Definition page_object (content_id : nat) : bytes :=
  latin1_bytes (page_object_text content_id).

(** The body of object [object_id] of the document made of [pages]. *)
Definition object_body (pages : list (list str)) (object_id : nat) : bytes :=
  match object_id with
  | 1 => CATALOG_OBJECT
  | 2 => latin1_bytes (page_tree_text ((λ k, 4 + 2 * k) <$> seq 0 (length pages)))
  | 3 => FONT_OBJECT
  | _ =>
      if Nat.even object_id then page_object (object_id + 1)
      else content_object (default [] (pages !! ((object_id - 5) / 2)))
  end.

(** An object as it stands in the file. *)
Definition object_record (object_id : nat) (body : bytes) : bytes :=
  latin1_bytes (object_header_text object_id) ++ body ++ [NL] ++ blit "endobj" ++ [NL].

(** The objects [object_ids] of the document, as they stand in the file. *)
Definition object_records (pages : list (list str)) (object_ids : list nat) : bytes :=
  concat ((λ object_id, object_record object_id (object_body pages object_id)) <$> object_ids).

(** Where object [object_id] starts in the file. *)
Definition object_offset (pages : list (list str)) (object_id : nat) : nat :=
  length (PDF_HEADER ++ object_records pages (seq 1 (object_id - 1))).

Definition xref_entry (offset : nat) : bytes := latin1_bytes (xref_entry_text offset).

(** The file ends in a trailer that gives [size] as its [/Size]. *)
Definition names_size (output : bytes) (size : nat) : Prop :=
  ∃ before xref_offset,
    output = before ++ latin1_bytes (trailer_text size xref_offset).

(** The cross-reference section and the trailer of the document: the
    [xref] line, the entry of object 0, one entry for each object and the
    trailer. *)
Definition xref_section (pages : list (list str)) : bytes :=
  let max_id := 2 * length pages + 3 in
  latin1_bytes (xref_line_text (max_id + 1))
  ++ (blit "0000000000 65535 f " ++ [NL])
  ++ concat ((λ object_id, xref_entry (object_offset pages object_id)) <$> seq 1 max_id)
  ++ latin1_bytes
       (trailer_text (max_id + 1)
          (length (PDF_HEADER ++ object_records pages (seq 1 max_id)))).

(** The whole file. *)
Definition pdf_file (pages : list (list str)) : bytes :=
  (PDF_HEADER ++ object_records pages (seq 1 (2 * length pages + 3)))
  ++ xref_section pages.

(** The characters of some bytes, the inverse of [latin1_bytes]. *)
Definition latin1_text (data : bytes) : str := Byte.to_N <$> data.


(** A run wrote, or tried to write, a file. *)
Definition writes (e : event) : Prop :=
  match e with
  | Written _ _ => True
  | Printed _ => False
  end.

(** A world in which every path exists, every file reads as the document
    [deep_numbered_document], and every write and every print succeeds. *)
Definition deep_numbered_environment : environment := {|
  path_exists := λ _, Returns true;
  read_text := λ _, Returns deep_numbered_document;
  write_bytes := λ _ _, Returns tt;
  print_message := λ _, Returns tt
|}.

(** A world in which every path exists, every file reads as the document
    [hello], and every write and every print succeeds. *)
Definition hello_environment : environment := {|
  path_exists := λ _, Returns true;
  read_text := λ _, Returns (lit "hello");
  write_bytes := λ _ _, Returns tt;
  print_message := λ _, Returns tt
|}.

(** A world in which [exists] raises [OSError] for every path, as it does
    for a name that is too long, and in which standard output cannot encode
    any message. *)
Definition closed_environment : environment := {|
  path_exists := λ _, Raises OSError;
  read_text := λ _, Raises OSError;
  write_bytes := λ _ _, Raises OSError;
  print_message := λ _, Raises UnicodeEncodeError
|}.

(** * Vocabulary of the further properties *)

(** A text that can stand between the parentheses of a PDF string: read
    from the left, a backslash is followed by one character that it
    announces, and no parenthesis stands without a backslash before it. *)
Fixpoint well_escaped (s : str) : bool :=
  match s with
  | [] => true
  | c :: s' =>
      if (c =? BACKSLASH)%N then
        match s' with
        | [] => false
        | _ :: s'' => well_escaped s''
        end
      else if (c =? LPAREN)%N || (c =? RPAREN)%N then false
      else well_escaped s'
  end.

(** The bytes of a content stream: what comes before the lines, the bytes
    of one line, and what comes after the lines. *)
Definition STREAM_PROLOGUE : bytes :=
  blit "BT" ++ [NL] ++ blit "/F1 10 Tf" ++ [NL]
  ++ blit "1 0 0 1 50 792 Tm" ++ [NL] ++ blit "14 TL" ++ [NL].

Definition line_bytes (line : str) : bytes :=
  latin1_bytes (lit "(" ++ pdf_escape (to_latin1 line) ++ lit ") Tj")
  ++ [NL] ++ blit "T*" ++ [NL].

Definition STREAM_EPILOGUE : bytes := blit "ET" ++ [NL].

(** The shape of a heading line: [level] hash signs, the white space [sp]
    and a text that starts with the character [t0], which is not white
    space. *)
Record heading_shape (line : str) (level : nat) (sp : str) (t0 : char) (text' : str)
  : Prop := {
  heading_line : line = replicate level HASH ++ sp ++ t0 :: text';
  heading_level : 1 ≤ level ≤ 6;
  heading_sp : forallb isspace sp = true;
  heading_sp_ne : sp ≠ [];
  heading_t0 : isspace t0 = false;
  heading_no_LF : LF ∉ t0 :: text'
}.

(** The shape of a bullet line: white space [ws], the mark [-] or [*], the
    white space [sp] and a body that starts with the character [b0], which is
    not white space. *)
Record bullet_shape (line ws : str) (mark : char) (sp : str) (b0 : char) (body' : str)
  : Prop := {
  bullet_line : line = ws ++ mark :: sp ++ b0 :: body';
  bullet_ws : forallb isspace ws = true;
  bullet_mark : mark = DASH ∨ mark = STAR;
  bullet_sp : forallb isspace sp = true;
  bullet_sp_ne : sp ≠ [];
  bullet_b0 : isspace b0 = false;
  bullet_no_LF : LF ∉ b0 :: body'
}.

(** An input line that is blank or opens or closes a code block. *)
Definition blank_or_fence (raw : str) : Prop :=
  strip (rstrip raw) = [] ∨ startswith (strip (rstrip raw)) fence = true.

(** The number of pages [paginate] makes of [count] lines. *)
Definition page_count (count : nat) (lines_per_page : Z) : nat :=
  match count with
  | O => 1
  | _ => (count + Z.to_nat lines_per_page - 1) / Z.to_nat lines_per_page
  end.

(** The length of the word a text starts with: its characters before the
    first one of [textwrap]'s white space. *)
Fixpoint word_prefix (s : str) : nat :=
  match s with
  | [] => 0
  | c :: s' => if is_wrap_space c then 0 else S (word_prefix s')
  end.

(** The length of the longest word of a text. *)
Fixpoint longest_word (s : str) : nat :=
  match s with
  | [] => 0
  | _ :: s' => Nat.max (word_prefix s) (longest_word s')
  end.

(** Every white space of the text is one that [textwrap] knows. *)
Definition plain_spaces (s : str) : bool :=
  forallb (λ c, implb (isspace c) (is_wrap_space c)) s.

(** A word: a chunk that is not empty and holds no white space. *)
Definition is_word (chunk : str) : Prop :=
  chunk ≠ [] ∧ forallb (λ c, negb (isspace c)) chunk = true.

(** Chunks in which runs of white space and words of at most [width]
    characters take turns; [blank] tells which of the two comes first. *)
Fixpoint alternating (width : nat) (blank : bool) (chunks : list str) : Prop :=
  match chunks with
  | [] => True
  | chunk :: rest =>
      chunk ≠ [] ∧
      (if blank then forallb is_wrap_space chunk = true
       else is_word chunk ∧ length chunk ≤ width) ∧
      alternating width (negb blank) rest
  end.

(** * Properties *)

(** ** [pdf_escape] *)

Lemma replace_char_cons old new c text :
  replace_char old new (c :: text) =
  (if (c =? old)%N then new else [c]) ++ replace_char old new text.
Proof. reflexivity. Qed.

Lemma replace_char_app old new s t :
  replace_char old new (s ++ t) = replace_char old new s ++ replace_char old new t.
Proof. unfold replace_char. apply bind_app. Qed.

Lemma pdf_escape_cons c text :
  pdf_escape (c :: text) = escape_char c ++ pdf_escape text.
Proof.
  unfold pdf_escape, escape_char.
  rewrite (replace_char_cons BACKSLASH).
  rewrite !replace_char_app.
  f_equal.
  destruct (N.eqb_spec c BACKSLASH) as [->|Hb]; [reflexivity|].
  destruct (N.eqb_spec c LPAREN) as [->|Hl]; [reflexivity|].
  destruct (N.eqb_spec c RPAREN) as [->|Hr]; [reflexivity|].
  cbn. rewrite (proj2 (N.eqb_neq c LPAREN) Hl). cbn.
  rewrite (proj2 (N.eqb_neq c RPAREN) Hr). reflexivity.
Qed.

Lemma pdf_escape_bind text : pdf_escape text = text ≫= escape_char.
Proof.
  induction text as [|c text IH]; [reflexivity|].
  rewrite pdf_escape_cons, IH. reflexivity.
Qed.

Lemma pdf_unescape_escape text : pdf_unescape (pdf_escape text) = text.
Proof.
  induction text as [|c text IH]; [reflexivity|].
  rewrite pdf_escape_cons. unfold escape_char.
  destruct (N.eqb_spec c BACKSLASH) as [->|Hb]; [cbn; by rewrite IH|].
  destruct (N.eqb_spec c LPAREN) as [->|Hl]; [cbn; by rewrite IH|].
  destruct (N.eqb_spec c RPAREN) as [->|Hr]; [cbn; by rewrite IH|].
  cbn. rewrite (proj2 (N.eqb_neq c BACKSLASH) Hb). by rewrite IH.
Qed.

(** C7. [pdf_escape] acts on each character on its own: a backslash becomes
    two backslashes, a parenthesis gets one backslash in front of it, and the
    backslash put in front of a parenthesis is not doubled again. Two texts
    with the same escaped form are equal. *)
Theorem pdf_escape_single_pass_injective (s1 s2 : str) :
  pdf_escape s1 = s1 ≫= escape_char ∧
  (pdf_escape s1 = pdf_escape s2 → s1 = s2).
Proof.
  split; [apply pdf_escape_bind|].
  intros H. rewrite <- (pdf_unescape_escape s1), H. apply pdf_unescape_escape.
Qed.

Lemma pdf_escape_single_pass_injective_witness :
  pdf_escape (lit "a(\)") = lit "a\(\\\)" ∧ lit "a(\)" = lit "a(\)".
Proof.
  split.
  - exact (proj1 (pdf_escape_single_pass_injective (lit "a(\)") (lit "a(\)"))).
  - apply (proj2 (pdf_escape_single_pass_injective (lit "a(\)") (lit "a(\)"))).
    reflexivity.
Defined.

(** ** [paginate] *)

Section chunks.
Context {A : Type}.
Variable k : nat.

Lemma chunks_S m (l : list A) : chunks k (S m) l = take k l :: chunks k m (drop k l).
Proof.
  unfold chunks. rewrite <- !list_fmap_compose.
  cbn [seq fmap list_fmap]. f_equal.
  - unfold compose, slice. cbn. f_equal. lia.
  - rewrite <- fmap_S_seq, <- list_fmap_compose.
    apply list_fmap_ext. intros _ i _. unfold compose, slice.
    rewrite drop_drop.
    replace (S i * k + k - S i * k) with k by lia.
    replace (i * k + k - i * k) with k by lia.
    reflexivity.
Qed.

Lemma chunks_concat m (l : list A) : length l ≤ m * k → concat (chunks k m l) = l.
Proof.
  revert l. induction m as [|m IH]; intros l Hl.
  - destruct l; [reflexivity|cbn in Hl; lia].
  - rewrite chunks_S. cbn [concat]. rewrite IH, take_drop; [done|].
    rewrite length_drop. lia.
Qed.

Lemma chunks_length m (l : list A) : length (chunks k m l) = m.
Proof. unfold chunks. by rewrite !length_fmap, length_seq. Qed.

Lemma chunks_lookup m (l : list A) i p :
  chunks k m l !! i = Some p → p = take k (drop (i * k) l) ∧ i < m.
Proof.
  unfold chunks. rewrite <- list_fmap_compose, list_lookup_fmap.
  intros H. apply fmap_Some in H as (j & Hj & ->).
  apply lookup_seq in Hj as [-> Hj]. split; [|done].
  unfold compose, slice. cbn. f_equal. lia.
Qed.

Hypothesis k_pos : 0 < k.

Lemma ceil_div_bounds n : 0 < n →
  let m := (n + k - 1) / k in n ≤ m * k ∧ (m - 1) * k < n ∧ 0 < m.
Proof.
  intros Hn m.
  pose proof (Nat.div_mod (n + k - 1) k ltac:(lia)) as Hdm.
  pose proof (Nat.mod_upper_bound (n + k - 1) k ltac:(lia)) as Hmod.
  fold m in Hdm.
  assert (0 < m) by (destruct m; [lia|lia]).
  repeat split; [nia|nia|done].
Qed.
End chunks.

(** C5. With a positive [lines_per_page], [paginate] returns the single page
    holding one empty line when there are no lines; otherwise it returns at
    least one page, the pages put end to end are the lines, no page is longer
    than [lines_per_page], no page is empty, and every page but the last has
    exactly [lines_per_page] lines. *)
Theorem paginate_chunks (lines : list str) (lines_per_page : Z) :
  (0 < lines_per_page)%Z →
  (lines = [] → paginate lines lines_per_page = Returns [[ [] ]]) ∧
  (lines ≠ [] →
   ∃ pages,
     paginate lines lines_per_page = Returns pages ∧
     pages ≠ [] ∧
     concat pages = lines ∧
     Forall (λ page, 0 < length page ≤ Z.to_nat lines_per_page) pages ∧
     ∀ i page, pages !! i = Some page → S i < length pages →
               length page = Z.to_nat lines_per_page).
Proof.
  intros Hpos. split; [by intros ->|]. intros Hne.
  set (k := Z.to_nat lines_per_page).
  assert (Hk : 0 < k) by (unfold k; lia).
  assert (Hlen : 0 < length lines) by (destruct lines; [done|cbn; lia]).
  destruct (ceil_div_bounds k Hk (length lines) Hlen) as (Hup & Hlow & Hm).
  set (m := (length lines + k - 1) / k) in *.
  exists (chunks k m lines). split; [|split; [|split; [|split]]].
  - unfold paginate, py_range. destruct lines as [|l0 ls]; [done|].
    destruct (Z.eqb_spec lines_per_page 0) as [|_]; [lia|].
    destruct (Z.ltb_spec lines_per_page 0) as [|_]; [lia|].
    reflexivity.
  - intros Hnil. pose proof (chunks_length k m lines) as Hl.
    rewrite Hnil in Hl. cbn in Hl. lia.
  - by apply chunks_concat.
  - apply Forall_lookup. intros i page Hi.
    apply chunks_lookup in Hi as [-> Hi].
    rewrite length_take, length_drop. nia.
  - intros i page Hi Hlast. rewrite chunks_length in Hlast.
    apply chunks_lookup in Hi as [-> Hi].
    rewrite length_take, length_drop. nia.
Qed.

Lemma paginate_chunks_witness :
  (0 < 2)%Z ∧
  ∃ pages,
    paginate [lit "a"; lit "b"; lit "c"] 2 = Returns pages ∧
    pages ≠ [] ∧
    concat pages = [lit "a"; lit "b"; lit "c"] ∧
    Forall (λ page, 0 < length page ≤ Z.to_nat 2) pages ∧
    ∀ i page, pages !! i = Some page → S i < length pages →
              length page = Z.to_nat 2.
Proof.
  split; [lia|].
  apply (paginate_chunks [lit "a"; lit "b"; lit "c"] 2); [lia|done].
Defined.

Example paginate_three_by_two :
  paginate [lit "a"; lit "b"; lit "c"] 2 = Returns [[lit "a"; lit "b"]; [lit "c"]].
Proof. reflexivity. Qed.

Example paginate_zero_step : paginate [lit "a"] 0 = Raises ValueError.
Proof. reflexivity. Qed.

(** ** [textwrap.wrap]: termination and the width of the lines *)

Lemma wrap_measure_app a b :
  wrap_measure (a ++ b) = wrap_measure a + wrap_measure b.
Proof. unfold wrap_measure. rewrite concat_app, !length_app. lia. Qed.

Lemma wrap_measure_cons c b :
  wrap_measure (c :: b) = S (length c) + wrap_measure b.
Proof. unfold wrap_measure. cbn. rewrite length_app. lia. Qed.

Lemma fill_line_spec width chunks : ∀ cur_line cur_len chunks' cur_line' cur_len',
  fill_line width chunks cur_line cur_len = (chunks', cur_line', cur_len') →
  cur_len ≤ width →
  ∃ taken,
    chunks = taken ++ chunks' ∧
    cur_line' = cur_line ++ taken ∧
    cur_len' = cur_len + length (concat taken) ∧
    cur_len' ≤ width ∧
    match chunks' with
    | chunk :: _ => width < cur_len' + length chunk
    | [] => True
    end.
Proof.
  induction chunks as [|chunk rest IH]; intros cur_line cur_len chunks' cur_line' cur_len' H Hle.
  - cbn in H. injection H as <- <- <-. exists []. cbn.
    repeat split; rewrite ?app_nil_r; try done; lia.
  - cbn in H. destruct (Nat.leb_spec (cur_len + length chunk) width) as [Hfit|Hfull].
    + apply IH in H as (taken & -> & -> & -> & Hw & Hnext); [|done].
      exists (chunk :: taken). cbn. rewrite <- app_assoc, length_app.
      repeat split; [lia|lia|done].
    + injection H as <- <- <-. exists []. cbn.
      repeat split; rewrite ?app_nil_r; try done; lia.
Qed.

Lemma last_removelast {A} (l : list A) x :
  last l = Some x → l = removelast l ++ [x].
Proof.
  intros H. apply last_Some in H as [l' ->]. by rewrite removelast_last.
Qed.

Lemma wrap_line_spec width chunks lines chunks' lines' :
  1 ≤ width → chunks ≠ [] →
  wrap_line width chunks lines = (chunks', lines') →
  wrap_measure chunks' < wrap_measure chunks ∧
  (lines' = lines ∨ ∃ l, lines' = lines ++ [l] ∧ length l ≤ width).
Proof.
  intros Hw Hne. unfold wrap_line.
  set (chunks1 := match chunks with
                  | chunk :: rest =>
                      if is_blank chunk && bool_decide (lines ≠ []) then rest else chunks
                  | [] => chunks
                  end).
  assert (H1 : wrap_measure chunks1 ≤ wrap_measure chunks ∧
               (chunks1 = chunks ∨ wrap_measure chunks1 < wrap_measure chunks)).
  { subst chunks1. destruct chunks as [|chunk rest]; [done|].
    destruct (is_blank chunk && bool_decide (lines ≠ [])).
    - rewrite wrap_measure_cons. split; [lia|right; lia].
    - split; [lia|by left]. }
  destruct (fill_line width chunks1 [] 0) as [[chunks2 cur_line] cur_len] eqn:Hfill.
  apply fill_line_spec in Hfill as (taken & Hchunks1 & Hcur & Hlen & Hle & Hnext); [|lia].
  cbn in Hcur, Hlen. subst cur_line cur_len.
  set (step := match chunks2 with
               | chunk :: _ =>
                   if width <? length chunk
                   then handle_long_word chunks2 taken (length (concat taken)) width
                   else (chunks2, taken)
               | [] => (chunks2, taken)
               end).
  assert (H3 : wrap_measure step.1 ≤ wrap_measure chunks2 ∧
               length (concat step.2) ≤ width ∧
               (taken = [] → chunks2 ≠ [] → wrap_measure step.1 < wrap_measure chunks2)).
  { subst step. destruct chunks2 as [|chunk rest]; [done|].
    destruct (Nat.ltb_spec width (length chunk)) as [Hlong|Hshort].
    - unfold handle_long_word.
      destruct (Nat.ltb_spec width 1) as [|_]; [lia|]. cbn [fst snd].
      rewrite !wrap_measure_cons, concat_app, length_app, length_drop. cbn.
      rewrite app_nil_r, length_take.
      repeat split; [lia|lia|]. intros -> _. cbn. lia.
    - cbn [fst snd]. repeat split; [lia|lia|].
      intros -> _. cbn in Hnext. lia. }
  destruct step as [chunks3 cur_line1]. cbn [fst snd] in H3.
  destruct H3 as (Hm3 & Hlen1 & Hprog).
  set (cur_line2 := match last cur_line1 with
                    | Some chunk => if is_blank chunk then removelast cur_line1 else cur_line1
                    | None => cur_line1
                    end).
  assert (H4 : length (concat cur_line2) ≤ width).
  { subst cur_line2. destruct (last cur_line1) as [chunk|] eqn:Hlast; [|done].
    destruct (is_blank chunk); [|done].
    apply last_removelast in Hlast. rewrite Hlast, concat_app, length_app in Hlen1. lia. }
  assert (Hmeasure : wrap_measure chunks3 < wrap_measure chunks).
  { rewrite Hchunks1, wrap_measure_app in H1.
    destruct taken as [|t taken'].
    - cbn in Hchunks1. destruct H1 as [_ [Heq|Hlt]].
      + cbn in Heq. subst chunks2.
        specialize (Hprog eq_refl Hne). lia.
      + cbn in Hlt. lia.
    - rewrite wrap_measure_cons in H1. lia. }
  intros H. destruct cur_line2 as [|c2 cl2] eqn:E2.
  - injection H as <- <-. split; [done|by left].
  - injection H as <- <-. split; [done|]. right. eexists. split; [done|]. done.
Qed.

Lemma wrap_chunks_loop_spec width fuel : ∀ chunks lines,
  1 ≤ width →
  wrap_measure chunks ≤ fuel →
  Forall (λ l, length l ≤ width) lines →
  ∃ result,
    wrap_chunks_loop fuel width chunks lines = Returns result ∧
    Forall (λ l, length l ≤ width) result.
Proof.
  induction fuel as [|fuel IH]; intros chunks lines Hw Hfuel Hlines.
  - destruct chunks as [|c rest]; [by exists lines|].
    rewrite wrap_measure_cons in Hfuel. lia.
  - destruct chunks as [|c rest]; [by exists lines|].
    cbn [wrap_chunks_loop].
    destruct (wrap_line width (c :: rest) lines) as [chunks' lines'] eqn:Hline.
    apply wrap_line_spec in Hline as [Hm Hl]; [|done|done].
    apply IH; [done|lia|].
    destruct Hl as [->|(l & -> & Hl)]; [done|].
    apply Forall_app. split; [done|]. by apply Forall_singleton.
Qed.

(** [textwrap.wrap] raises exactly for a width that is not positive;
    otherwise it returns, and no line is longer than the width. *)
Lemma textwrap_wrap_raises text width :
  (width ≤ 0)%Z → textwrap_wrap text width = Raises ValueError.
Proof.
  intros H. unfold textwrap_wrap. by destruct (Z.leb_spec width 0); [|lia].
Qed.

Lemma textwrap_wrap_returns text width :
  (0 < width)%Z →
  ∃ lines,
    textwrap_wrap text width = Returns lines ∧
    Forall (λ l, length l ≤ Z.to_nat width) lines.
Proof.
  intros H. unfold textwrap_wrap. destruct (Z.leb_spec width 0); [lia|].
  apply wrap_chunks_loop_spec; [lia|done|done].
Qed.

Lemma wrap_text_raises text width :
  (width ≤ 0)%Z → wrap_text text width = Raises ValueError.
Proof. intros H. unfold wrap_text. by rewrite textwrap_wrap_raises. Qed.

Lemma wrap_text_returns text width :
  (0 < width)%Z →
  ∃ first rest,
    wrap_text text width = Returns (first :: rest) ∧
    Forall (λ l, length l ≤ Z.to_nat width) (first :: rest).
Proof.
  intros H. unfold wrap_text.
  destruct (textwrap_wrap_returns text width H) as (lines & -> & Hlines). cbn.
  destruct lines as [|l ls].
  - exists [], []. split; [done|]. apply Forall_singleton. cbn. lia.
  - by exists l, ls.
Qed.

(** ** The formatter: what it returns is never wider than the page *)

Lemma Returns_inj {A} (a b : A) : Returns a = Returns b → a = b.
Proof. by intros [= ->]. Qed.

Lemma fits_nil : fits [].
Proof. unfold fits. cbn. lia. Qed.

Lemma Forall_fits_snoc_nil lines : Forall fits lines → Forall fits (lines ++ [[]]).
Proof.
  intros H. apply Forall_app. split; [done|]. apply Forall_singleton, fits_nil.
Qed.

Lemma item_lines_lookup prefix body_lines i l :
  item_lines prefix body_lines !! i = Some l →
  ∃ chunk pad, body_lines !! i = Some chunk ∧ l = pad ++ chunk ∧
               length pad = length prefix.
Proof.
  unfold item_lines. rewrite list_lookup_imap. intros H.
  apply fmap_Some in H as (chunk & Hc & ->). exists chunk.
  destruct i; eexists; (split; [done|split; [done|]]); [done|].
  apply length_replicate.
Qed.

Lemma item_lines_fits prefix body_lines (width : Z) :
  (width = MAX_CHARS_PER_LINE - Z.of_nat (length prefix))%Z →
  Forall (λ l, length l ≤ Z.to_nat width) body_lines →
  (0 < width)%Z →
  Forall fits (item_lines prefix body_lines).
Proof.
  intros -> Hbody Hpos. apply Forall_lookup. intros i l Hi.
  apply item_lines_lookup in Hi as (chunk & pad & Hc & -> & Hpad).
  rewrite Forall_lookup in Hbody. specialize (Hbody _ _ Hc). cbn in Hbody.
  unfold fits. rewrite length_app, Hpad. lia.
Qed.

Lemma pop_trailing_blank_Forall (P : str → Prop) lines :
  Forall P lines → Forall P (pop_trailing_blank lines).
Proof.
  induction 1 as [|l lines Hl Hlines IH]; [done|]. cbn.
  destruct (pop_trailing_blank lines) as [|k kept].
  - destruct l; [done|]. by apply Forall_singleton.
  - by apply Forall_cons.
Qed.

Section formatter_width.
Variable U : unicode_data.

Lemma process_line_fits in_code_block lines raw state' :
  process_line U (in_code_block, lines) raw = Returns state' →
  Forall fits lines → Forall fits state'.2.
Proof.
  unfold process_line. intros H Hlines.
  destruct (startswith (strip (rstrip raw)) (lit "```")).
  { apply Returns_inj in H as <-. by apply Forall_fits_snoc_nil. }
  destruct in_code_block.
  { destruct (wrap_text_returns (rstrip raw) (MAX_CHARS_PER_LINE - 4)) as (w & ws & Hw & Hb);
      [done|].
    rewrite Hw in H. cbn [and_then] in H. apply Returns_inj in H as <-. cbn [snd].
    apply Forall_app. split; [done|].
    apply Forall_fmap. eapply Forall_impl; [exact Hb|].
    intros [|c l] Hl; [apply fits_nil|]. unfold fits. cbn in *. lia. }
  destruct (strip (rstrip raw)) as [|s0 stripped] eqn:Hstripped.
  { apply Returns_inj in H as <-. by apply Forall_fits_snoc_nil. }
  destruct (match_heading (rstrip raw)) as [[hashes text]|].
  { destruct (wrap_text_returns (upper U (strip text)) MAX_CHARS_PER_LINE)
      as (w & ws & Hw & Hb); [done|].
    rewrite Hw in H. cbn [and_then] in H. apply Returns_inj in H as <-. cbn [snd].
    apply Forall_app. split.
    - destruct (last lines) as [[|]|]; [done| |done]. by apply Forall_fits_snoc_nil.
    - by apply Forall_fits_snoc_nil. }
  destruct (match_bullet (rstrip raw)) as [[mark text]|].
  { destruct (wrap_text_returns (strip text)
                (MAX_CHARS_PER_LINE - Z.of_nat (length (lit "- "))))
      as (w & ws & Hw & Hb); [done|].
    rewrite Hw in H. cbn [and_then] in H. apply Returns_inj in H as <-. cbn [snd].
    apply Forall_app. split; [done|].
    by eapply item_lines_fits. }
  destruct (match_numbered U (rstrip raw)) as [[number text]|].
  { set (prefix := number ++ [SPACE]) in *.
    destruct (Z.le_gt_cases (MAX_CHARS_PER_LINE - Z.of_nat (length prefix)) 0) as [Hbad|Hok].
    - rewrite wrap_text_raises in H by done. discriminate.
    - destruct (wrap_text_returns (strip text)
                  (MAX_CHARS_PER_LINE - Z.of_nat (length prefix)))
        as (w & ws & Hw & Hb); [lia|].
      rewrite Hw in H. cbn [and_then] in H. apply Returns_inj in H as <-. cbn [snd].
      apply Forall_app. split; [done|].
      eapply item_lines_fits; [done|done|lia]. }
  destruct (wrap_text_returns (s0 :: stripped) MAX_CHARS_PER_LINE)
    as (w & ws & Hw & Hb); [done|].
  rewrite Hw in H. cbn [and_then] in H. apply Returns_inj in H as <-. cbn [snd].
  apply Forall_app. by split.
Qed.

Lemma process_lines_fits raws : ∀ state state',
  process_lines U state raws = Returns state' →
  Forall fits state.2 → Forall fits state'.2.
Proof.
  induction raws as [|raw raws IH]; intros state state' H Hstate.
  - cbn in H. by apply Returns_inj in H as <-.
  - cbn in H. destruct state as [in_code_block lines].
    destruct (process_line U (in_code_block, lines) raw) as [state1| |] eqn:Hline;
      [|done|done].
    cbn in H. eapply IH; [done|]. by eapply process_line_fits.
Qed.

(** The budget of the wrapping loop is enough: a line is processed or a
    [ValueError] is raised. *)
Lemma process_line_finishes state raw :
  (∃ state', process_line U state raw = Returns state') ∨
  process_line U state raw = Raises ValueError.
Proof.
  destruct state as [in_code_block lines]. unfold process_line.
  destruct (startswith (strip (rstrip raw)) (lit "```")); [by left; eexists|].
  destruct in_code_block.
  { destruct (wrap_text_returns (rstrip raw) (MAX_CHARS_PER_LINE - 4)) as (w & ws & -> & _);
      [done|]. by left; eexists. }
  destruct (strip (rstrip raw)) as [|s0 stripped]; [by left; eexists|].
  destruct (match_heading (rstrip raw)) as [[hashes text]|].
  { destruct (wrap_text_returns (upper U (strip text)) MAX_CHARS_PER_LINE)
      as (w & ws & -> & _); [done|]. by left; eexists. }
  destruct (match_bullet (rstrip raw)) as [[mark text]|].
  { destruct (wrap_text_returns (strip text)
                (MAX_CHARS_PER_LINE - Z.of_nat (length (lit "- "))))
      as (w & ws & -> & _); [done|]. by left; eexists. }
  destruct (match_numbered U (rstrip raw)) as [[number text]|].
  { destruct (Z.le_gt_cases (MAX_CHARS_PER_LINE - Z.of_nat (length (number ++ [SPACE]))) 0)
      as [Hbad|Hok].
    - right. by rewrite wrap_text_raises.
    - destruct (wrap_text_returns (strip text)
                  (MAX_CHARS_PER_LINE - Z.of_nat (length (number ++ [SPACE]))))
        as (w & ws & -> & _); [lia|]. by left; eexists. }
  destruct (wrap_text_returns (s0 :: stripped) MAX_CHARS_PER_LINE)
    as (w & ws & -> & _); [done|]. by left; eexists.
Qed.

Lemma process_lines_finishes raws : ∀ state,
  (∃ state', process_lines U state raws = Returns state') ∨
  process_lines U state raws = Raises ValueError.
Proof.
  induction raws as [|raw raws IH]; intros state; [by left; eexists|].
  cbn. destruct (process_line_finishes state raw) as [[state1 ->]| ->]; [|by right].
  cbn. apply IH.
Qed.

Lemma markdown_to_lines_finishes markdown :
  (∃ lines, markdown_to_lines U markdown = Returns lines) ∨
  markdown_to_lines U markdown = Raises ValueError.
Proof.
  unfold markdown_to_lines.
  destruct (process_lines_finishes (splitlines markdown) (false, [])) as [[state ->]| ->];
    [by left; eexists|by right].
Qed.

End formatter_width.

(** ** Stripping and matching a line of a known shape *)

Lemma span_app p a b :
  forallb p a = true →
  match b with c :: _ => p c = false | [] => True end →
  span p (a ++ b) = (a, b).
Proof.
  intros Ha Hb. induction a as [|x a IH]; cbn.
  - destruct b as [|c b]; [done|]. cbn. by rewrite Hb.
  - cbn in Ha. apply andb_prop in Ha as [Hx Ha]. by rewrite Hx, IH.
Qed.

Lemma rstrip_nonspace c s : isspace c = false → rstrip (c :: s) = c :: rstrip s.
Proof. intros H. cbn. rewrite H. by destruct (rstrip s). Qed.

Lemma rstrip_app_nonspace a c s :
  isspace c = false → rstrip (a ++ c :: s) = a ++ c :: rstrip s.
Proof.
  intros H. induction a as [|x a IH]; [by apply rstrip_nonspace|].
  cbn [app rstrip]. by rewrite IH; destruct a.
Qed.

Lemma rstrip_idemp s : rstrip (rstrip s) = rstrip s.
Proof.
  induction s as [|c s IH]; [done|]. cbn.
  destruct (rstrip s) as [|r0 r] eqn:Hr.
  - destruct (isspace c) eqn:Hc; [done|]. cbn. by rewrite Hc.
  - cbn [rstrip] in *. by rewrite IH.
Qed.

Lemma strip_shape ws c s :
  forallb isspace ws = true → isspace c = false →
  strip (ws ++ c :: s) = c :: rstrip s.
Proof.
  intros Hws Hc. unfold strip, lstrip.
  rewrite rstrip_app_nonspace by done. by rewrite span_app.
Qed.

Lemma dot_star_end_no_LF s : LF ∉ s → dot_star_end s = Some s.
Proof.
  intros H. unfold dot_star_end.
  rewrite <- (app_nil_r s) at 1. rewrite span_app; [done| |done].
  apply forallb_forall. intros c Hc. apply negb_true_iff, N.eqb_neq.
  intros ->. apply H. by apply list_elem_of_In.
Qed.

Lemma spaces_then_rest_shape sp c s :
  sp ≠ [] → forallb isspace sp = true → isspace c = false → LF ∉ c :: s →
  spaces_then_rest (sp ++ c :: s) = Some (c :: s).
Proof.
  intros Hne Hsp Hc HLF. unfold spaces_then_rest.
  rewrite span_app by done. destruct sp; [done|]. by apply dot_star_end_no_LF.
Qed.

Section numbered_items.
Variable U : unicode_data.

Lemma isdecimal_not c d : (d < 128)%N → ((48 <=? d) && (d <=? 57))%N = false →
  isdecimal U c = true → c ≠ d.
Proof.
  intros Hd Hnot Hc ->. rewrite (isdecimal_ascii U d Hd) in Hc. congruence.
Qed.

Lemma match_numbered_shape line ws ds sp b0 body' :
  numbered_shape U line ws ds sp b0 body' →
  match_numbered U line = Some (ws ++ ds ++ [DOT], b0 :: body').
Proof.
  intros [-> Hws Hds Hne Hsp Hspne Hb0 HLF]. unfold match_numbered.
  destruct ds as [|d ds']; [done|].
  assert (Hd : isdecimal U d = true) by (cbn in Hds; by apply andb_prop in Hds as [? _]).
  rewrite span_app; [|done|cbn; by apply (isdecimal_not_space U)].
  change ((d :: ds') ++ [DOT] ++ sp ++ b0 :: body')
    with ((d :: ds') ++ DOT :: (sp ++ b0 :: body')).
  rewrite span_app; [|done|exact (isdecimal_ascii U DOT eq_refl)].
  cbn [N.eqb DOT Pos.eqb]. by rewrite spaces_then_rest_shape.
Qed.

Lemma numbered_line_step in_lines raw ws ds sp b0 body' :
  numbered_shape U (rstrip raw) ws ds sp b0 body' →
  process_line U (false, in_lines) raw =
  let prefix := (ws ++ ds ++ [DOT]) ++ [SPACE] in
  let* body_lines :=
    wrap_text (strip (b0 :: body')) (MAX_CHARS_PER_LINE - Z.of_nat (length prefix)) in
  Returns (false, in_lines ++ item_lines prefix body_lines).
Proof.
  intros Hshape. pose proof (match_numbered_shape _ _ _ _ _ _ Hshape) as Hmatch.
  destruct Hshape as [Hline Hws Hds Hne Hsp Hspne Hb0 HLF].
  destruct ds as [|d ds']; [done|].
  assert (Hd : isdecimal U d = true) by (cbn in Hds; by apply andb_prop in Hds as [? _]).
  assert (Hdsp : isspace d = false) by by apply (isdecimal_not_space U).
  unfold process_line. rewrite Hmatch. rewrite Hline.
  change (ws ++ (d :: ds') ++ [DOT] ++ sp ++ b0 :: body')
    with (ws ++ d :: (ds' ++ [DOT] ++ sp ++ b0 :: body')).
  rewrite strip_shape by done.
  assert (Hfence : startswith (d :: rstrip (ds' ++ [DOT] ++ sp ++ b0 :: body')) (lit "```") = false).
  { cbn. apply andb_false_intro1, N.eqb_neq. by eapply isdecimal_not. }
  rewrite Hfence.
  assert (Hhead : match_heading (ws ++ d :: ds' ++ [DOT] ++ sp ++ b0 :: body') = None).
  { unfold match_heading.
    assert (Hspan : (span (λ c, (c =? HASH)%N) (ws ++ d :: ds' ++ [DOT] ++ sp ++ b0 :: body')).1 = []).
    { destruct ws as [|w ws']; cbn.
      - assert (d ≠ HASH) as ->%N.eqb_neq by by eapply isdecimal_not. done.
      - cbn in Hws. apply andb_prop in Hws as [Hw _].
        destruct (N.eqb_spec w HASH) as [->|]; [done|done]. }
    destruct (span _ _) as [hashes rest]. cbn in Hspan. by subst hashes. }
  rewrite Hhead.
  assert (Hbullet : match_bullet (ws ++ d :: ds' ++ [DOT] ++ sp ++ b0 :: body') = None).
  { unfold match_bullet. rewrite span_app by done.
    assert (d ≠ DASH) as ->%N.eqb_neq by by eapply isdecimal_not.
    assert (d ≠ STAR) as ->%N.eqb_neq by by eapply isdecimal_not. done. }
  rewrite Hbullet. reflexivity.
Qed.

End numbered_items.

(** ** The formatter: fences, numbered items and the width of lines *)

Lemma process_lines_app U before : ∀ after state,
  process_lines U state (before ++ after) =
  let* middle := process_lines U state before in process_lines U middle after.
Proof.
  induction before as [|raw before IH]; intros after state; [done|].
  cbn [app process_lines].
  destruct (process_line U state raw) as [state1| |]; [|done|done].
  cbn [and_then]. apply IH.
Qed.

Lemma one_digit_shape U :
  numbered_shape U (lit " 1. x") [SPACE] (lit "1") [SPACE] 120%N [].
Proof.
  split; try done.
  - change (forallb (isdecimal U) [49%N] = true). cbn [forallb].
    by rewrite (isdecimal_ascii U 49%N eq_refl).
  - intros H. apply list_elem_of_singleton in H. discriminate.
Qed.

Lemma indented_item_line U :
  process_line U (false, []) (lit " 1. x") = Returns (false, [lit " 1. x"]).
Proof.
  rewrite (numbered_line_step U [] (lit " 1. x") [SPACE] (lit "1") [SPACE] 120%N []).
  - vm_compute. reflexivity.
  - replace (rstrip (lit " 1. x")) with (lit " 1. x") by (vm_compute; reflexivity).
    apply one_digit_shape.
Qed.

(** C2, as stated, fails: for the line [ 1. x], which has a space before
    the number, the first segment does not begin with [1. ]; the formatter
    keeps the leading white space in the prefix. *)
Lemma numbered_prefix_keeps_indent :
  ¬ ∃ U first rest,
      process_line U (false, []) (lit " 1. x") = Returns (false, first :: rest) ∧
      startswith first (lit "1. ") = true.
Proof.
  intros (U & first & rest & H & Hstart).
  rewrite indented_item_line in H. apply Returns_inj in H.
  injection H as <- <-. vm_compute in Hstart. discriminate.
Qed.

(** C2, amended. For a numbered item outside a code block whose prefix (the
    leading white space, the digits, the dot and one space) is shorter than
    the maximum width, the body is wrapped at the maximum width less the
    length of the prefix, the first segment is the prefix followed by the
    first wrapped chunk, and every other segment is as many spaces as the
    prefix is long, followed by its chunk. *)
Theorem numbered_item_segments U (lines : list str) (raw ws ds sp : str) (b0 : char)
    (body' : str) :
  let prefix := ws ++ ds ++ [DOT; SPACE] in
  numbered_shape U (rstrip raw) ws ds sp b0 body' →
  (Z.of_nat (length prefix) < MAX_CHARS_PER_LINE)%Z →
  ∃ first rest,
    wrap_text (strip (b0 :: body')) (MAX_CHARS_PER_LINE - Z.of_nat (length prefix)) =
      Returns (first :: rest) ∧
    process_line U (false, lines) raw =
      Returns (false,
               lines ++ (prefix ++ first)
                     :: ((λ chunk, replicate (length prefix) SPACE ++ chunk) <$> rest)).
Proof.
  intros prefix Hshape Hlen.
  rewrite (numbered_line_step U lines raw ws ds sp b0 body' Hshape).
  assert (Hprefix : (ws ++ ds ++ [DOT]) ++ [SPACE] = prefix).
  { unfold prefix. by rewrite <- !app_assoc. }
  cbv zeta. rewrite Hprefix.
  destruct (wrap_text_returns (strip (b0 :: body'))
              (MAX_CHARS_PER_LINE - Z.of_nat (length prefix)))
    as (first & rest & Hwrap & _); [lia|].
  exists first, rest. split; [done|]. rewrite Hwrap. cbn [and_then].
  do 3 f_equal. unfold item_lines. cbn [imap]. f_equal.
  apply imap_const.
Qed.

Lemma numbered_item_segments_witness :
  numbered_shape ascii_data (rstrip (lit "12. some text")) [] (lit "12") [SPACE]
    115%N (lit "ome text") ∧
  length (lit "12. ") = 4 ∧
  ∃ first rest,
    wrap_text (strip (lit "some text")) (MAX_CHARS_PER_LINE - 4) =
      Returns (first :: rest) ∧
    process_line ascii_data (false, []) (lit "12. some text") =
      Returns (false,
               (lit "12. " ++ first) :: ((λ chunk, replicate 4 SPACE ++ chunk) <$> rest)).
Proof.
  assert (Hshape : numbered_shape ascii_data (rstrip (lit "12. some text")) []
                     (lit "12") [SPACE] 115%N (lit "ome text")).
  { split; try done. intros H. vm_compute in H.
    repeat (apply elem_of_cons in H as [H|H]; [discriminate|]).
    by apply elem_of_nil in H. }
  split; [exact Hshape|]. split; [reflexivity|].
  apply (numbered_item_segments ascii_data [] (lit "12. some text") []
           (lit "12") [SPACE] 115%N (lit "ome text") Hshape).
  vm_compute. reflexivity.
Defined.

(** A long item: the second segment starts with four spaces. *)
Example numbered_item_wraps :
  markdown_to_lines ascii_data
    (lit "12. " ++ replicate 90 97%N ++ lit " bb") =
  Returns [lit "12. " ++ replicate 90 97%N; lit "    bb"].
Proof. vm_compute. reflexivity. Qed.

(** C3, as stated, fails: the output is not the single line [    code]. *)
Lemma fenced_code_document_not_single_line :
  ¬ ∃ U, markdown_to_lines U fenced_code_document = Returns [lit "    code"].
Proof. intros [U H]. vm_compute in H. discriminate. Qed.

(** C3, amended. The document made of a fence line, the line [code] and a
    fence line yields two lines: the empty line the opening fence emits, and
    then [    code] with its indent of four spaces. No line of the output
    holds a backtick. *)
Theorem fenced_code_document_lines U :
  markdown_to_lines U fenced_code_document = Returns [[]; lit "    code"] ∧
  Forall (λ l, BACKTICK ∉ l) [[]; lit "    code"].
Proof.
  split; [vm_compute; reflexivity|].
  apply Forall_cons_2; [apply not_elem_of_nil|]. apply Forall_singleton.
  intros H. vm_compute in H.
  repeat (apply elem_of_cons in H as [H|H]; [discriminate|]).
  by apply elem_of_nil in H.
Qed.

(** C9. A line whose stripped form begins with three backticks, whatever
    follows them, flips the code block flag and adds exactly one empty line;
    nothing of the line reaches the output. *)
Theorem fence_line_toggles U (in_code_block : bool) (lines : list str)
    (raw ws info : str) :
  forallb isspace ws = true →
  raw = ws ++ fence ++ info →
  strip (rstrip raw) = fence ++ rstrip info ∧
  process_line U (in_code_block, lines) raw =
    Returns (negb in_code_block, lines ++ [[]]).
Proof.
  intros Hws ->.
  assert (Hstrip : strip (rstrip (ws ++ fence ++ info)) = fence ++ rstrip info).
  { change (ws ++ fence ++ info) with (ws ++ BACKTICK :: BACKTICK :: BACKTICK :: info).
    rewrite rstrip_app_nonspace by done.
    rewrite strip_shape by done.
    rewrite !rstrip_nonspace by done. by rewrite rstrip_idemp. }
  split; [done|].
  unfold process_line. rewrite Hstrip.
  change (startswith (fence ++ rstrip info) (lit "```")) with true. reflexivity.
Qed.

Lemma fence_line_toggles_witness :
  forallb isspace (lit "  ") = true ∧
  process_line ascii_data (false, [lit "text"]) (lit "  ```python") =
    Returns (true, [lit "text"; []]).
Proof.
  split; [reflexivity|].
  apply (fence_line_toggles ascii_data false [lit "text"] (lit "  ```python")
           (lit "  ") (lit "python")); reflexivity.
Defined.

(** C10. The formatter is not total. A numbered item outside a code block
    whose prefix (leading white space, digits, dot and one space) is at least
    as long as the maximum width gives the wrapper a width that is not
    positive; processing that line raises [ValueError], and so does the
    formatter on any document that reaches such a line. *)
Theorem numbered_prefix_too_long_raises U (markdown : str) (before after lines : list str)
    (raw ws ds sp : str) (b0 : char) (body' : str) :
  let prefix := ws ++ ds ++ [DOT; SPACE] in
  splitlines markdown = before ++ raw :: after →
  process_lines U (false, []) before = Returns (false, lines) →
  numbered_shape U (rstrip raw) ws ds sp b0 body' →
  (MAX_CHARS_PER_LINE ≤ Z.of_nat (length prefix))%Z →
  wrap_text (strip (b0 :: body')) (MAX_CHARS_PER_LINE - Z.of_nat (length prefix)) =
    Raises ValueError ∧
  process_line U (false, lines) raw = Raises ValueError ∧
  markdown_to_lines U markdown = Raises ValueError.
Proof.
  intros prefix Hsplit Hbefore Hshape Hlen.
  assert (Hprefix : (ws ++ ds ++ [DOT]) ++ [SPACE] = prefix).
  { unfold prefix. by rewrite <- !app_assoc. }
  assert (Hwrap : wrap_text (strip (b0 :: body'))
                    (MAX_CHARS_PER_LINE - Z.of_nat (length prefix)) = Raises ValueError)
    by (apply wrap_text_raises; lia).
  assert (Hline : process_line U (false, lines) raw = Raises ValueError).
  { rewrite (numbered_line_step U lines raw ws ds sp b0 body' Hshape).
    cbv zeta. by rewrite Hprefix, Hwrap. }
  split; [done|]. split; [done|].
  unfold markdown_to_lines.
  rewrite Hsplit, process_lines_app, Hbefore. cbn [and_then process_lines].
  by rewrite Hline.
Qed.

Lemma numbered_prefix_too_long_raises_witness :
  splitlines deep_numbered_document = [] ++ deep_numbered_document :: [] ∧
  (MAX_CHARS_PER_LINE ≤ Z.of_nat (length (replicate 91 SPACE ++ lit "1" ++ [DOT; SPACE])))%Z ∧
  markdown_to_lines ascii_data deep_numbered_document = Raises ValueError.
Proof.
  split; [vm_compute; reflexivity|]. split; [vm_compute; discriminate|].
  apply (numbered_prefix_too_long_raises ascii_data deep_numbered_document [] [] []
           deep_numbered_document (replicate 91 SPACE) (lit "1") [SPACE] 120%N []).
  - vm_compute. reflexivity.
  - reflexivity.
  - split; try done.
    intros H. apply list_elem_of_singleton in H. discriminate.
  - vm_compute. discriminate.
Defined.

(** C4. The formatter strips each input line, has [textwrap] drop white
    space and emits an empty line for an empty segment, and still returns a
    line that ends in white space on [wide_indent_document]: in a code
    block, a line of ninety spaces followed by a word of ninety-one letters
    yields the empty line of the fence, a line of ninety-four spaces, the
    first ninety letters behind four spaces, and the last letter behind four
    spaces. [textwrap] finds no room for the word behind the ninety spaces,
    appends an empty piece of it, drops that piece as the white space at the
    end of the line, and so keeps the spaces. The line fits the width and is
    nothing but trailing white space. *)
Theorem wide_indent_document_lines U :
  markdown_to_lines U wide_indent_document =
    Returns [[]; replicate 94 SPACE; lit "    " ++ replicate 90 120%N; lit "    x"] ∧
  wrap_text (replicate 90 SPACE ++ replicate 91 120%N) (MAX_CHARS_PER_LINE - 4) =
    Returns [replicate 90 SPACE; replicate 90 120%N; lit "x"] ∧
  fits (replicate 94 SPACE) ∧
  rstrip (replicate 94 SPACE) = [] ∧
  ¬ no_trailing_space (replicate 94 SPACE).
Proof.
  split; [vm_compute; reflexivity|]. split; [vm_compute; reflexivity|].
  split; [unfold fits; rewrite length_replicate; vm_compute; lia|].
  split; [vm_compute; reflexivity|].
  unfold no_trailing_space. intros H. vm_compute in H. discriminate.
Qed.

(** Whatever the Unicode tables, the lines returned on
    [wide_indent_document] do not all fit the width without trailing white
    space. *)
Lemma wide_indent_keeps_trailing_space :
  ¬ ∃ U, ∀ lines,
      markdown_to_lines U wide_indent_document = Returns lines →
      Forall (λ l, fits l ∧ no_trailing_space l) lines.
Proof.
  intros [U H].
  specialize (H [[]; replicate 94 SPACE; lit "    " ++ replicate 90 120%N; lit "    x"]).
  assert (Hrun : markdown_to_lines U wide_indent_document =
                 Returns [[]; replicate 94 SPACE; lit "    " ++ replicate 90 120%N; lit "    x"])
    by (vm_compute; reflexivity).
  specialize (H Hrun).
  apply Forall_cons in H as [_ H]. apply Forall_cons in H as [[_ H] _].
  vm_compute in H. discriminate.
Qed.

(** X18. On every input document the formatter returns or raises
    [ValueError], and every line of what it returns has at most
    [MAX_CHARS_PER_LINE] (94) characters. *)
Theorem formatter_lines_fit U (markdown : str) :
  ((∃ lines, markdown_to_lines U markdown = Returns lines) ∨
   markdown_to_lines U markdown = Raises ValueError) ∧
  ∀ lines, markdown_to_lines U markdown = Returns lines →
           Forall (λ l, length l ≤ 94) lines.
Proof.
  split; [apply markdown_to_lines_finishes|].
  unfold markdown_to_lines. intros lines H.
  destruct (process_lines U (false, []) (splitlines markdown)) as [state| |] eqn:Hloop;
    [|done|done].
  cbn [and_then] in H. apply Returns_inj in H as <-.
  apply pop_trailing_blank_Forall.
  by apply (process_lines_fits U (splitlines markdown) (false, []) state).
Qed.

Lemma formatter_lines_fit_witness :
  markdown_to_lines ascii_data wide_indent_document =
    Returns [[]; replicate 94 SPACE; lit "    " ++ replicate 90 120%N; lit "    x"] ∧
  Forall (λ l, length l ≤ 94)
    [[]; replicate 94 SPACE; lit "    " ++ replicate 90 120%N; lit "    x"].
Proof.
  assert (Hrun : markdown_to_lines ascii_data wide_indent_document =
                 Returns [[]; replicate 94 SPACE; lit "    " ++ replicate 90 120%N; lit "    x"])
    by (vm_compute; reflexivity).
  split; [exact Hrun|].
  exact (proj2 (formatter_lines_fit ascii_data wide_indent_document) _ Hrun).
Defined.

(** ** Decimal text *)

Lemma decimal_from_acc fuel : ∀ n acc,
  decimal_from fuel n acc = decimal_from fuel n [] ++ acc.
Proof.
  induction fuel as [|fuel IH]; intros n acc; [done|].
  cbn [decimal_from]. destruct (n <? 10); [done|].
  rewrite IH, (IH _ [_]). by rewrite <- app_assoc.
Qed.

Lemma decimal_from_fuel f1 : ∀ f2 n acc,
  n < f1 → n < f2 → decimal_from f1 n acc = decimal_from f2 n acc.
Proof.
  induction f1 as [|f1 IH]; intros f2 n acc H1 H2; [lia|].
  destruct f2 as [|f2]; [lia|]. cbn [decimal_from].
  destruct (Nat.ltb_spec n 10) as [|Hn]; [done|].
  assert (n / 10 < n) by (apply Nat.div_lt; lia).
  apply IH; lia.
Qed.

Lemma decimal_small n : n < 10 → decimal n = [(48 + N.of_nat n)%N].
Proof.
  intros H. unfold decimal. cbn [decimal_from].
  destruct (Nat.ltb_spec n 10) as [_|]; [|lia]. by rewrite Nat.mod_small.
Qed.

Lemma decimal_step n :
  10 ≤ n → decimal n = decimal (n / 10) ++ [(48 + N.of_nat (n mod 10))%N].
Proof.
  intros H. unfold decimal at 1. cbn [decimal_from].
  destruct (Nat.ltb_spec n 10) as [|_]; [lia|].
  assert (n / 10 < n) by (apply Nat.div_lt; lia).
  rewrite decimal_from_acc. f_equal. apply decimal_from_fuel; lia.
Qed.

(** Induction over the decimal digits of a number. *)
Lemma decimal_ind (P : nat → Prop) :
  (∀ n, n < 10 → P n) → (∀ n, 10 ≤ n → P (n / 10) → P n) → ∀ n, P n.
Proof.
  intros Hsmall Hstep n. induction (lt_wf n) as [n _ IH].
  destruct (Nat.lt_ge_cases n 10) as [|Hn]; [by apply Hsmall|].
  apply Hstep; [done|]. apply IH, Nat.div_lt; lia.
Qed.

Lemma decimal_digits n : forallb is_digit (decimal n) = true.
Proof.
  induction n as [n Hn|n Hn IH] using decimal_ind.
  - rewrite decimal_small by done. cbn. unfold is_digit.
    rewrite andb_true_r. apply andb_true_intro. split; apply N.leb_le; lia.
  - rewrite decimal_step by done. rewrite forallb_app, IH. cbn.
    pose proof (Nat.mod_upper_bound n 10 ltac:(lia)).
    unfold is_digit. rewrite andb_true_r.
    apply andb_true_intro. split; apply N.leb_le; lia.
Qed.

Lemma decimal_value_snoc digits c :
  decimal_value (digits ++ [c]) = 10 * decimal_value digits + N.to_nat (c - 48).
Proof. unfold decimal_value. by rewrite foldl_snoc. Qed.

Lemma decimal_value_decimal n : decimal_value (decimal n) = n.
Proof.
  induction n as [n Hn|n Hn IH] using decimal_ind.
  - rewrite decimal_small by done. cbn. lia.
  - rewrite decimal_step by done. rewrite decimal_value_snoc, IH.
    pose proof (Nat.div_mod n 10 ltac:(lia)). lia.
Qed.

Lemma decimal_inj n m : decimal n = decimal m → n = m.
Proof.
  intros H. by rewrite <- (decimal_value_decimal n), H, decimal_value_decimal.
Qed.




(** ** The Latin-1 codec on the texts of the emitter *)

Lemma encode_latin1_ok text :
  is_latin1 text = true → encode_latin1 text = Returns (latin1_bytes text).
Proof.
  induction text as [|c text IH]; [done|]. cbn [is_latin1 forallb].
  intros [Hc Htext]%andb_prop. apply N.ltb_lt in Hc.
  cbn [encode_latin1 latin1_bytes fmap list_fmap]. unfold latin1_byte.
  destruct (Byte.of_N c) as [b|] eqn:Hb.
  - fold (is_latin1 text) in Htext. by rewrite (IH Htext).
  - apply Byte.of_N_None_iff in Hb. lia.
Qed.

Lemma is_latin1_app a b : is_latin1 (a ++ b) = is_latin1 a && is_latin1 b.
Proof. apply forallb_app. Qed.

Lemma latin1_bytes_app a b : latin1_bytes (a ++ b) = latin1_bytes a ++ latin1_bytes b.
Proof. apply fmap_app. Qed.

Lemma latin1_bytes_length text : length (latin1_bytes text) = length text.
Proof. apply length_fmap. Qed.

Lemma is_latin1_of_digits text : forallb is_digit text = true → is_latin1 text = true.
Proof.
  unfold is_latin1. rewrite !forallb_forall. intros H c Hc.
  specialize (H c Hc). unfold is_digit in H.
  apply andb_prop in H as [_ H]. apply N.leb_le in H. apply N.ltb_lt. lia.
Qed.

Lemma is_latin1_decimal n : is_latin1 (decimal n) = true.
Proof. apply is_latin1_of_digits, decimal_digits. Qed.

Lemma is_latin1_replicate k c : (c < 256)%N → is_latin1 (replicate k c) = true.
Proof.
  intros Hc. induction k as [|k IH]; [done|]. cbn.
  apply andb_true_intro. split; [by apply N.ltb_lt|done].
Qed.

Lemma is_latin1_format_010d n : is_latin1 (format_010d n) = true.
Proof.
  unfold format_010d. rewrite is_latin1_app, is_latin1_decimal.
  by rewrite is_latin1_replicate.
Qed.

Lemma is_latin1_join sep parts :
  is_latin1 sep = true → Forall (λ part, is_latin1 part = true) parts →
  is_latin1 (join sep parts) = true.
Proof.
  intros Hsep Hparts. induction Hparts as [|part parts Hpart _ IH]; [done|].
  cbn [join]. destruct parts as [|part' parts']; [done|].
  by rewrite !is_latin1_app, Hpart, Hsep, IH.
Qed.

Lemma is_latin1_to_latin1 value : is_latin1 (to_latin1 value) = true.
Proof.
  induction value as [|c value IH]; [done|].
  cbn. rewrite andb_true_iff. split; [|exact IH].
  by destruct (N.ltb_spec c 256) as [Hc|Hc]; [apply N.ltb_lt|].
Qed.

Lemma is_latin1_pdf_escape text : is_latin1 text = true → is_latin1 (pdf_escape text) = true.
Proof.
  induction text as [|c text IH]; [done|]. cbn [is_latin1 forallb].
  intros [Hc Htext]%andb_prop. rewrite pdf_escape_cons, is_latin1_app, (IH Htext).
  rewrite andb_true_r. unfold escape_char.
  destruct (c =? BACKSLASH)%N; [done|]. destruct (c =? LPAREN)%N; [done|].
  destruct (c =? RPAREN)%N; [done|]. cbn. by rewrite Hc.
Qed.

(** The texts the emitter encodes have no character above 255. *)
Ltac latin1 :=
  repeat first
    [ rewrite is_latin1_app
    | rewrite is_latin1_decimal
    | rewrite is_latin1_format_010d
    | reflexivity ].

Lemma is_latin1_page_commands page_lines :
  is_latin1 (join [LF] (page_commands page_lines) ++ [LF]) = true.
Proof.
  rewrite is_latin1_app, andb_true_r. apply is_latin1_join; [done|].
  unfold page_commands. rewrite !Forall_app. split; [split|].
  - repeat apply Forall_cons_2; try apply Forall_nil_2; latin1.
  - induction page_lines as [|line page_lines IH]; [apply Forall_nil_2|].
    cbn [mbind list_bind]. apply Forall_app. split; [|exact IH].
    unfold line_commands. repeat apply Forall_cons_2; try apply Forall_nil_2; [|done].
    rewrite !is_latin1_app, is_latin1_pdf_escape; [done|apply is_latin1_to_latin1].
  - by apply Forall_singleton.
Qed.

Lemma is_latin1_length_line_text n : is_latin1 (length_line_text n) = true.
Proof. unfold length_line_text. latin1. Qed.

Lemma is_latin1_page_object_text n : is_latin1 (page_object_text n) = true.
Proof. unfold page_object_text. latin1. Qed.

Lemma is_latin1_page_tree_text ids : is_latin1 (page_tree_text ids) = true.
Proof.
  unfold page_tree_text. cbv zeta. rewrite !is_latin1_app, is_latin1_decimal.
  rewrite is_latin1_join; [done|done|].
  apply Forall_fmap, Forall_forall. intros id _. cbv beta. unfold compose. latin1.
Qed.

Lemma is_latin1_object_header_text n : is_latin1 (object_header_text n) = true.
Proof. unfold object_header_text. latin1. Qed.

Lemma is_latin1_xref_line_text n : is_latin1 (xref_line_text n) = true.
Proof. unfold xref_line_text. latin1. Qed.

Lemma is_latin1_xref_entry_text n : is_latin1 (xref_entry_text n) = true.
Proof. unfold xref_entry_text. latin1. Qed.

Lemma is_latin1_trailer_text size xref_offset :
  is_latin1 (trailer_text size xref_offset) = true.
Proof. unfold trailer_text. latin1. Qed.

Lemma build_page_stream_returns page_lines :
  build_page_stream page_lines = Returns (page_stream page_lines).
Proof. apply encode_latin1_ok, is_latin1_page_commands. Qed.

(** ** The emitter: the objects it allocates *)

Lemma add_page_returns a page :
  add_page a page =
  Returns {| objects :=
               <[max_object_id a + 1 := page_object (max_object_id a + 2)]>
                 (<[max_object_id a + 2 := content_object page]> (objects a));
             page_ids := page_ids a ++ [max_object_id a + 1];
             max_object_id := max_object_id a + 2 |}.
Proof.
  unfold add_page. rewrite build_page_stream_returns. cbn [and_then].
  rewrite (encode_latin1_ok _ (is_latin1_length_line_text _)). cbn [and_then].
  by rewrite (encode_latin1_ok _ (is_latin1_page_object_text _)).
Qed.

Lemma add_pages_spec pages : ∀ a,
  ∃ a',
    add_pages a pages = Returns a' ∧
    max_object_id a' = max_object_id a + 2 * length pages ∧
    page_ids a' =
      page_ids a ++ ((λ k, max_object_id a + 1 + 2 * k) <$> seq 0 (length pages)) ∧
    (∀ id, id ≤ max_object_id a → objects a' !! id = objects a !! id) ∧
    (∀ k page, pages !! k = Some page →
       objects a' !! (max_object_id a + 1 + 2 * k) =
         Some (page_object (max_object_id a + 2 + 2 * k)) ∧
       objects a' !! (max_object_id a + 2 + 2 * k) = Some (content_object page)).
Proof.
  induction pages as [|page pages IH]; intros a.
  - exists a. cbn. rewrite app_nil_r. repeat split; try done; lia.
  - cbn [add_pages]. rewrite add_page_returns. cbn [and_then].
    destruct (IH {| objects :=
                      <[max_object_id a + 1 := page_object (max_object_id a + 2)]>
                        (<[max_object_id a + 2 := content_object page]> (objects a));
                    page_ids := page_ids a ++ [max_object_id a + 1];
                    max_object_id := max_object_id a + 2 |})
      as (a' & Hrun & Hmax & Hids & Hold & Hnew).
    cbn [max_object_id page_ids objects] in *.
    exists a'. split; [done|]. split; [cbn [length]; lia|]. split; [|split].
    + rewrite Hids, <- app_assoc. f_equal. cbn [length seq fmap list_fmap app].
      f_equal; [lia|]. rewrite <- fmap_S_seq, <- list_fmap_compose.
      apply list_fmap_ext. intros _ k _. cbn. lia.
    + intros id Hid. rewrite Hold by lia.
      rewrite !lookup_insert_ne by lia. done.
    + intros [|k] page' Hpage.
      * cbn in Hpage. injection Hpage as <-.
        rewrite !Nat.mul_0_r, !Nat.add_0_r. rewrite !Hold by lia.
        rewrite lookup_insert_eq, lookup_insert_ne by lia.
        by rewrite lookup_insert_eq.
      * cbn in Hpage. destruct (Hnew k page' Hpage) as [Hp Hc].
        replace (max_object_id a + 1 + 2 * S k) with (max_object_id a + 2 + 1 + 2 * k) by lia.
        replace (max_object_id a + 2 + 2 * S k) with (max_object_id a + 2 + 2 + 2 * k) by lia.
        by rewrite Hp, Hc.
Qed.

Lemma object_body_page pages k :
  object_body pages (4 + 2 * k) = page_object (5 + 2 * k).
Proof.
  unfold object_body. change (4 + 2 * k) with (S (S (S (S (2 * k))))).
  cbv iota. assert (Nat.even (S (S (S (S (2 * k))))) = true) as ->.
  { change (S (S (S (S (2 * k))))) with (4 + 2 * k).
    by rewrite Nat.even_add, Nat.even_mul. }
  f_equal. lia.
Qed.

Lemma object_body_content pages k :
  object_body pages (5 + 2 * k) = content_object (default [] (pages !! k)).
Proof.
  unfold object_body. change (5 + 2 * k) with (S (S (S (S (S (2 * k)))))).
  cbv iota. assert (Nat.even (S (S (S (S (S (2 * k)))))) = false) as ->.
  { change (S (S (S (S (S (2 * k)))))) with (5 + 2 * k).
    by rewrite Nat.even_add, Nat.even_mul. }
  do 3 f_equal.
  replace (S (S (S (S (S (2 * k))))) - 5) with (k * 2) by lia.
  apply Nat.div_mul. lia.
Qed.

Lemma allocate_objects_spec pages :
  ∃ a,
    allocate_objects pages = Returns a ∧
    max_object_id a = 2 * length pages + 3 ∧
    page_ids a = (λ k, 4 + 2 * k) <$> seq 0 (length pages) ∧
    ∀ id, 1 ≤ id ≤ 2 * length pages + 3 → objects a !! id = Some (object_body pages id).
Proof.
  unfold allocate_objects.
  destruct (add_pages_spec pages
              {| objects := <[3 := FONT_OBJECT]> ∅; page_ids := []; max_object_id := 3 |})
    as (a' & Hrun & Hmax & Hids & Hold & Hnew).
  cbn [max_object_id page_ids objects] in *. cbv zeta.
  rewrite Hrun. cbn [and_then].
  rewrite (encode_latin1_ok _ (is_latin1_page_tree_text _)). cbn [and_then].
  eexists. split; [done|]. cbn [max_object_id page_ids objects].
  assert (Hids' : page_ids a' = (λ k, 4 + 2 * k) <$> seq 0 (length pages)).
  { rewrite Hids. cbn [app]. apply list_fmap_ext. intros _ k _. lia. }
  split; [lia|]. split; [done|].
  intros id Hid.
  destruct (decide (id = 1)) as [->|H1]; [by rewrite lookup_insert_eq|].
  rewrite lookup_insert_ne by done.
  destruct (decide (id = 2)) as [->|H2].
  { rewrite lookup_insert_eq. cbn [object_body]. by rewrite Hids'. }
  rewrite lookup_insert_ne by done.
  destruct (decide (id = 3)) as [->|H3].
  { rewrite Hold by lia. by rewrite lookup_insert_eq. }
  destruct (Nat.Even_or_Odd id) as [[m Hm]|[m Hm]].
  - assert (Hk : id = 4 + 2 * (m - 2)) by lia.
    destruct (lookup_lt_is_Some_2 pages (m - 2) ltac:(lia)) as [page Hpage].
    destruct (Hnew _ _ Hpage) as [Hp _].
    rewrite Hk, object_body_page.
    replace (4 + 2 * (m - 2)) with (3 + 1 + 2 * (m - 2)) by lia. by rewrite Hp.
  - assert (Hk : id = 5 + 2 * (m - 2)) by lia.
    destruct (lookup_lt_is_Some_2 pages (m - 2) ltac:(lia)) as [page Hpage].
    destruct (Hnew _ _ Hpage) as [_ Hc].
    rewrite Hk, object_body_content, Hpage.
    replace (5 + 2 * (m - 2)) with (3 + 2 + 2 * (m - 2)) by lia. by rewrite Hc.
Qed.

(** ** The emitter: the bytes it writes *)

Lemma write_objects_spec (objects : gmap nat bytes) (body_of : nat → bytes) ids :
  ∀ output (offsets : list nat),
  (∀ id, id ∈ ids → objects !! id = Some (body_of id)) →
  ∃ offsets',
    write_objects objects ids output offsets =
      Returns (output ++ concat ((λ id, object_record id (body_of id)) <$> ids),
               offsets') ∧
    length offsets' = length offsets ∧
    (∀ j, j ∉ ids → offsets' !! j = offsets !! j) ∧
    (NoDup ids → ∀ before id after,
       ids = before ++ id :: after → id < length offsets →
       offsets' !! id =
         Some (length (output ++ concat ((λ id, object_record id (body_of id)) <$> before)))).
Proof.
  induction ids as [|id0 ids IH]; intros output offsets Hbodies.
  - exists offsets. cbn. rewrite app_nil_r. repeat split; try done.
    intros _ [|? ?] ? ? ?; discriminate.
  - pose proof (Hbodies id0 (list_elem_of_here _ _)) as Hbody.
    destruct (IH (((output ++ latin1_bytes (object_header_text id0)) ++ body_of id0)
                    ++ [NL] ++ blit "endobj" ++ [NL])
                 (<[id0 := length output]> offsets))
      as (offsets' & Hrun & Hlen & Hother & Hthis).
    { intros id Hid. apply Hbodies. by apply list_elem_of_further. }
    assert (Hrecord : ∀ tail,
              (((output ++ latin1_bytes (object_header_text id0)) ++ body_of id0)
                 ++ [NL] ++ blit "endobj" ++ [NL]) ++ tail =
              output ++ object_record id0 (body_of id0) ++ tail).
    { intros tail. unfold object_record. by rewrite <- !app_assoc. }
    exists offsets'. split; [|split; [|split]].
    + cbn [write_objects].
      rewrite (encode_latin1_ok _ (is_latin1_object_header_text _)). cbn [and_then].
      unfold bytes in *. rewrite Hbody, Hrun.
      cbn [fmap list_fmap concat]. by rewrite Hrecord.
    + by rewrite Hlen, length_insert.
    + intros j Hj. apply not_elem_of_cons in Hj as [Hne Hj].
      rewrite Hother by done. by apply list_lookup_insert_ne.
    + intros Hnodup before id after Hsplit Hid.
      apply NoDup_cons in Hnodup as [Hfresh Hnodup].
      destruct before as [|b before'].
      * cbn in Hsplit. injection Hsplit as <- <-.
        rewrite Hother by done. cbn. rewrite app_nil_r.
        by apply list_lookup_insert_eq.
      * cbn in Hsplit. injection Hsplit as <- ->.
        rewrite (Hthis Hnodup before' id after eq_refl) by by rewrite length_insert.
        cbn [fmap list_fmap concat]. by rewrite Hrecord.
Qed.

Lemma write_xref_entries_spec (offsets : list nat) (offset_of : nat → nat) ids :
  ∀ output,
  (∀ id, id ∈ ids → offsets !! id = Some (offset_of id)) →
  write_xref_entries offsets ids output =
    Returns (output ++ concat ((λ id, xref_entry (offset_of id)) <$> ids)).
Proof.
  induction ids as [|id0 ids IH]; intros output Hoffsets.
  - cbn. by rewrite app_nil_r.
  - cbn [write_xref_entries]. rewrite (Hoffsets id0) by apply list_elem_of_here.
    rewrite (encode_latin1_ok _ (is_latin1_xref_entry_text _)). cbn [and_then].
    rewrite IH by (intros id Hid; by apply Hoffsets, list_elem_of_further).
    cbn [fmap list_fmap concat]. unfold xref_entry. by rewrite <- app_assoc.
Qed.

Lemma seq_split_at first count i :
  i < count →
  seq first count = seq first i ++ (first + i) :: seq (first + S i) (count - S i).
Proof.
  intros Hi. replace count with (i + S (count - S i)) at 1 by lia.
  rewrite seq_app. cbn [seq]. do 3 f_equal. lia.
Qed.

(** What [generate_pdf] computes, in closed form. *)
Lemma write_body_spec pages :
  ∃ l,
    write_body pages = Returns l ∧
    max_object_id (allocated l) = 2 * length pages + 3 ∧
    page_ids (allocated l) = (λ k, 4 + 2 * k) <$> seq 0 (length pages) ∧
    (∀ id, 1 ≤ id ≤ 2 * length pages + 3 →
           objects (allocated l) !! id = Some (object_body pages id)) ∧
    body l = PDF_HEADER ++ object_records pages (seq 1 (2 * length pages + 3)) ∧
    length (offsets l) = 2 * length pages + 4 ∧
    offsets l !! 0 = Some 0 ∧
    (∀ id, 1 ≤ id ≤ 2 * length pages + 3 →
           offsets l !! id = Some (object_offset pages id)).
Proof.
  unfold write_body.
  destruct (allocate_objects_spec pages) as (a & -> & Hmax & Hids & Hobjects).
  cbn [and_then]. rewrite Hmax.
  destruct (write_objects_spec (objects a) (object_body pages)
              (seq 1 (2 * length pages + 3)) PDF_HEADER
              (replicate (2 * length pages + 3 + 1) 0))
    as (offsets' & -> & Hlen & Hother & Hthis).
  { intros id Hid. apply elem_of_seq in Hid. apply Hobjects. lia. }
  cbn [and_then]. eexists. split; [done|].
  cbn [allocated body offsets fst snd].
  rewrite length_replicate in *.
  split; [done|]. split; [done|]. split; [done|]. split; [done|].
  split; [lia|]. split.
  - rewrite Hother by (rewrite elem_of_seq; lia).
    apply lookup_replicate_2. lia.
  - intros id Hid.
    rewrite (Hthis (NoDup_seq _ _) (seq 1 (id - 1)) id
               (seq (1 + S (id - 1)) (2 * length pages + 3 - S (id - 1)))).
    + done.
    + rewrite (seq_split_at 1 (2 * length pages + 3) (id - 1)) by lia.
      do 2 f_equal. lia.
    + lia.
Qed.

Lemma generate_pdf_returns pages : generate_pdf pages = Returns (pdf_file pages).
Proof.
  unfold generate_pdf.
  destruct (write_body_spec pages)
    as (l & -> & Hmax & _ & _ & Hbody & Hlen & _ & Hoffsets).
  cbn [and_then]. cbv zeta. rewrite Hmax, Hbody.
  rewrite (encode_latin1_ok _ (is_latin1_xref_line_text _)). cbn [and_then].
  rewrite (write_xref_entries_spec (offsets l) (object_offset pages)).
  2:{ intros id Hid. apply elem_of_seq in Hid. apply Hoffsets. lia. }
  cbn [and_then].
  rewrite (encode_latin1_ok _ (is_latin1_trailer_text _ _)). cbn [and_then].
  unfold pdf_file, xref_section. cbv zeta. by rewrite <- !app_assoc.
Qed.


(** ** The emitter: the size the trailer names *)

Lemma latin1_text_bytes text : is_latin1 text = true → latin1_text (latin1_bytes text) = text.
Proof.
  induction text as [|c text IH]; [done|]. cbn [is_latin1 forallb].
  intros [Hc Htext]%andb_prop. apply N.ltb_lt in Hc.
  cbn [latin1_bytes latin1_text fmap list_fmap]. f_equal; [|by apply IH].
  unfold latin1_byte. destruct (Byte.of_N c) as [b|] eqn:Hb.
  - by apply Byte.to_of_N.
  - apply Byte.of_N_None_iff in Hb. lia.
Qed.

Lemma digits_then_other (a1 a2 r1 r2 : str) (c1 c2 : char) :
  forallb is_digit a1 = true → forallb is_digit a2 = true →
  is_digit c1 = false → is_digit c2 = false →
  a1 ++ c1 :: r1 = a2 ++ c2 :: r2 → a1 = a2 ∧ r1 = r2.
Proof.
  revert a2. induction a1 as [|x a1 IH]; intros [|y a2] H1 H2 Hc1 Hc2 Heq; cbn in *.
  - by injection Heq as _ ->.
  - injection Heq as -> _. apply andb_prop in H2 as [H2 _]. congruence.
  - injection Heq as -> _. apply andb_prop in H1 as [H1 _]. congruence.
  - injection Heq as -> Heq.
    apply andb_prop in H1 as [_ H1]. apply andb_prop in H2 as [_ H2].
    destruct (IH a2 H1 H2 Hc1 Hc2 Heq) as [-> ->]. done.
Qed.

Lemma forallb_reverse (p : char → bool) (l : str) :
  forallb p l = true → forallb p (reverse l) = true.
Proof.
  rewrite !forallb_forall. intros H c Hc. apply H.
  apply (proj1 (list_elem_of_In _ _)), (proj1 (elem_of_reverse _ _)).
  by apply (proj2 (list_elem_of_In _ _)).
Qed.

Lemma other_then_digits (p1 p2 d1 d2 : str) (c1 c2 : char) :
  forallb is_digit d1 = true → forallb is_digit d2 = true →
  is_digit c1 = false → is_digit c2 = false →
  p1 ++ c1 :: d1 = p2 ++ c2 :: d2 → p1 = p2 ∧ d1 = d2.
Proof.
  intros H1 H2 Hc1 Hc2 Heq.
  apply (f_equal reverse) in Heq.
  rewrite !reverse_app, !reverse_cons, <- !app_assoc in Heq. cbn [app] in Heq.
  apply digits_then_other in Heq as [Hd Hp]; try done; try by apply forallb_reverse.
  split; [by apply (inj reverse)|by apply (inj reverse)].
Qed.

Lemma trailer_text_parts (before : str) size xref_offset :
  before ++ trailer_text size xref_offset =
  ((((before ++ lit "trailer" ++ [LF] ++ lit "<< /Size") ++ SPACE :: decimal size)
    ++ lit " /Root 1 0 R >>" ++ [LF] ++ lit "startxref") ++ LF :: decimal xref_offset)
  ++ ([LF] ++ lit "%%EOF" ++ [LF]).
Proof. unfold trailer_text. rewrite <- !app_assoc. reflexivity. Qed.

(** A file names one size only. *)
Lemma names_size_unique output size1 size2 :
  names_size output size1 → names_size output size2 → size1 = size2.
Proof.
  intros (b1 & x1 & H1) (b2 & x2 & H2). rewrite H1 in H2.
  apply (f_equal latin1_text) in H2. unfold latin1_text in H2.
  rewrite !fmap_app in H2. fold (latin1_text (latin1_bytes (trailer_text size1 x1))) in H2.
  fold (latin1_text (latin1_bytes (trailer_text size2 x2))) in H2.
  rewrite !latin1_text_bytes in H2 by apply is_latin1_trailer_text.
  rewrite !trailer_text_parts in H2.
  apply app_inv_tail in H2.
  apply other_then_digits in H2 as [H2 _]; try done; try apply decimal_digits.
  apply app_inv_tail in H2.
  apply other_then_digits in H2 as [_ H2]; try done; try apply decimal_digits.
  by apply decimal_inj.
Qed.

Lemma names_size_pdf_file pages : names_size (pdf_file pages) (2 * length pages + 4).
Proof.
  unfold names_size, pdf_file, xref_section. cbv zeta.
  replace (2 * length pages + 3 + 1) with (2 * length pages + 4) by lia.
  eexists _, _. rewrite !app_assoc. reflexivity.
Qed.

(** ** The emitter: the properties of the file *)

(** C1, as stated, fails: for one page the trailer does not name the size
    [1 * 2 + 3]. It names 6, the five objects and the entry of object 0. *)
Lemma one_page_size_is_not_five :
  ¬ ∃ output,
      generate_pdf [[ [] ]] = Returns output ∧
      names_size output (length [[ [] : str ]] * 2 + 3).
Proof.
  intros (output & Hrun & Hsize).
  rewrite generate_pdf_returns in Hrun. apply Returns_inj in Hrun as <-.
  pose proof (names_size_unique _ _ _ Hsize (names_size_pdf_file [[ [] ]])) as H.
  discriminate H.
Qed.

(** C1, amended. For every page sequence of [n] pages the emitter returns a
    file whose trailer names the size [2 * n + 4], one more than the highest
    object number [2 * n + 3]. The page tree, object 2, lists in [/Kids] the
    page objects [4, 6, ...], one for each page in page order, and gives [n]
    as [/Count]; the page object of page [k] is object [4 + 2 * k] and refers
    to its content stream, object [5 + 2 * k]. *)
Theorem trailer_size_and_page_tree (pages : list (list str)) :
  let n := length pages in
  ∃ l output,
    write_body pages = Returns l ∧
    generate_pdf pages = Returns output ∧
    max_object_id (allocated l) = 2 * n + 3 ∧
    names_size output (2 * n + 4) ∧
    page_ids (allocated l) = (λ k, 4 + 2 * k) <$> seq 0 n ∧
    length (page_ids (allocated l)) = n ∧
    objects (allocated l) !! 2 =
      Some (latin1_bytes
              (lit "<< /Type /Pages /Kids [ "
               ++ join (lit " ")
                    ((λ page_id, decimal page_id ++ lit " 0 R") <$> page_ids (allocated l))
               ++ lit " ] /Count " ++ decimal n ++ lit " >>")) ∧
    ∀ k page, pages !! k = Some page →
      objects (allocated l) !! (4 + 2 * k) = Some (page_object (5 + 2 * k)) ∧
      objects (allocated l) !! (5 + 2 * k) = Some (content_object page).
Proof.
  intros n.
  destruct (write_body_spec pages)
    as (l & Hbody & Hmax & Hids & Hobjects & _ & _ & _ & _).
  exists l, (pdf_file pages).
  split; [done|]. split; [apply generate_pdf_returns|]. split; [done|].
  split; [apply names_size_pdf_file|]. split; [done|].
  assert (Hcount : length (page_ids (allocated l)) = n)
    by by rewrite Hids, length_fmap, length_seq.
  split; [done|]. split.
  - rewrite (Hobjects 2) by lia. cbn [object_body]. rewrite Hids.
    unfold page_tree_text. cbv zeta. by rewrite length_fmap, length_seq.
  - intros k page Hpage.
    pose proof (lookup_lt_Some _ _ _ Hpage) as Hk.
    rewrite !Hobjects by (fold n; lia).
    by rewrite object_body_page, object_body_content, Hpage.
Qed.

Lemma trailer_size_and_page_tree_witness :
  ∃ l output,
    write_body [[lit "a"]; [lit "b"]] = Returns l ∧
    generate_pdf [[lit "a"]; [lit "b"]] = Returns output ∧
    names_size output 8 ∧
    page_ids (allocated l) = [4; 6] ∧
    objects (allocated l) !! 4 = Some (page_object 5) ∧
    objects (allocated l) !! 5 = Some (content_object [lit "a"]).
Proof.
  destruct (trailer_size_and_page_tree [[lit "a"]; [lit "b"]])
    as (l & output & Hbody & Hrun & _ & Hsize & Hids & _ & _ & Hpages).
  destruct (Hpages 0 [lit "a"] eq_refl) as [Hpage Hcontent].
  by exists l, output.
Defined.

(** The page tree of a document of two pages. *)
Example page_tree_of_two_pages :
  object_body [[lit "a"]; [lit "b"]] 2 =
  blit "<< /Type /Pages /Kids [ 4 0 R 6 0 R ] /Count 2 >>".
Proof. vm_compute. reflexivity. Qed.

(** *** Offsets *)









(** ** [main] *)

Lemma paginate_returns lines (lines_per_page : Z) :
  (0 < lines_per_page)%Z → ∃ pages, paginate lines lines_per_page = Returns pages.
Proof.
  intros Hpos. unfold paginate, py_range. destruct lines as [|l lines]; [by eexists|].
  destruct (Z.eqb_spec lines_per_page 0) as [|_]; [lia|].
  destruct (Z.ltb_spec lines_per_page 0) as [|_]; [lia|].
  by eexists.
Qed.

Lemma deep_numbered_document_raises U :
  markdown_to_lines U deep_numbered_document = Raises ValueError.
Proof.
  assert (Hsplit : splitlines deep_numbered_document = [deep_numbered_document])
    by (vm_compute; reflexivity).
  assert (Hline : rstrip deep_numbered_document = deep_numbered_document)
    by (vm_compute; reflexivity).
  unfold markdown_to_lines. rewrite Hsplit. cbn [process_lines].
  rewrite (numbered_line_step U [] deep_numbered_document (replicate 91 SPACE)
             (lit "1") [SPACE] 120%N []).
  - cbv zeta. by rewrite wrap_text_raises.
  - rewrite Hline. split; try done.
    + change (forallb (isdecimal U) [49%N] = true). cbn [forallb].
      by rewrite (isdecimal_ascii U 49%N eq_refl).
    + intros H. apply list_elem_of_singleton in H. discriminate.
Qed.

(** The runs of [main], by the step at which they end: before anything was
    printed or written, after the usage message, after the error message,
    after the write and the confirmation, or after the write alone. *)
Lemma main_cases U (env : environment) (argv : list str) :
  (∃ result, main U env argv = ([], result) ∧ ∀ code, result ≠ Returns code) ∨
  (length argv ≠ 3 ∧ print_message env Usage = Returns tt ∧
   main U env argv = ([Printed Usage], Returns 1%Z)) ∨
  ∃ program input_path output_path,
    argv = [program; input_path; output_path] ∧
    ((path_exists env input_path = Returns false ∧
      print_message env (InputFileNotFound input_path) = Returns tt ∧
      main U env argv = ([Printed (InputFileNotFound input_path)], Returns 1%Z)) ∨
     (path_exists env input_path = Returns true ∧
      ∃ markdown lines pages output,
        read_text env input_path = Returns markdown ∧
        markdown_to_lines U markdown = Returns lines ∧
        paginate lines 53 = Returns pages ∧
        generate_pdf pages = Returns output ∧
        ((write_bytes env output_path output = Returns tt ∧
          print_message env (PdfGenerated output_path (length pages)) = Returns tt ∧
          main U env argv =
            ([Written output_path output;
              Printed (PdfGenerated output_path (length pages))], Returns 0%Z)) ∨
         (∃ result, main U env argv = ([Written output_path output], result) ∧
                    ∀ code, result ≠ Returns code)))).
Proof.
  assert (Husage : length argv ≠ 3 →
            main U env argv = run_then (printing env Usage) (λ _, pure (Returns 1%Z)))
    by (intros Hlen; by destruct argv as [|a0 [|a1 [|a2 [|a3 argv]]]]).
  destruct (decide (length argv = 3)) as [Hlen|Hlen].
  - destruct argv as [|a0 [|a1 [|a2 [|a3 argv]]]]; try discriminate. clear Husage Hlen.
    unfold main, run_then, pure, act, printing. cbn [fst snd].
    destruct (path_exists env a1) as [[|]|e|] eqn:Hexists; [| |left; by eexists..];
      cbn [negb fst snd app].
    + destruct (read_text env a1) as [markdown|e|] eqn:Hread;
        [|left; by eexists..].
      cbn [fst snd].
      destruct (markdown_to_lines U markdown) as [lines|e|] eqn:Hlines;
        [|left; by eexists..].
      cbn [fst snd]. change (Z.of_nat LINES_PER_PAGE) with 53%Z.
      destruct (paginate lines 53) as [pages|e|] eqn:Hpages;
        [|left; by eexists..].
      cbn [fst snd].
      destruct (generate_pdf pages) as [output|e|] eqn:Houtput;
        [|left; by eexists..].
      cbn [fst snd app]. right. right. exists a0, a1, a2. split; [done|]. right.
      split; [done|]. exists markdown, lines, pages, output.
      do 4 (split; [done|]).
      destruct (write_bytes env a2 output) as [[]|e|] eqn:Hwrite; cbn [fst snd app];
        [|right; by eexists..].
      destruct (print_message env (PdfGenerated a2 (length pages))) as [[]|e|] eqn:Hprint;
        cbn [fst snd app]; [by left|right; by eexists..].
    + destruct (print_message env (InputFileNotFound a1)) as [[]|e|] eqn:Hprint;
        cbn [fst snd app]; [|left; by eexists..].
      right. right. exists a0, a1, a2. split; [done|]. by left.
  - rewrite (Husage Hlen). unfold run_then, pure, printing.
    destruct (print_message env Usage) as [[]|e|] eqn:Hprint; cbn [fst snd app];
      [by right; left|left; by eexists..].
Qed.

(** C8, as stated, fails: with exactly two arguments and an input file that
    exists, a run need not write the file and return 0. When the input is
    [deep_numbered_document], the formatter raises and [main] ends with that
    exception, having printed and written nothing. *)
Lemma main_raises_on_deep_numbered_document :
  ¬ ∃ U trace,
      main U deep_numbered_environment [lit "main"; lit "in.md"; lit "out.pdf"] =
        (trace, Returns 0%Z).
Proof.
  intros (U & trace & H).
  assert (Hrun : main U deep_numbered_environment [lit "main"; lit "in.md"; lit "out.pdf"] =
                 ([], Raises ValueError)).
  { unfold main, run_then, pure.
    cbn [path_exists read_text deep_numbered_environment negb fst snd].
    by rewrite deep_numbered_document_raises. }
  rewrite Hrun in H. discriminate.
Qed.

(** The two handled error paths fail in the same way when the world does:
    where [exists] raises, and where standard output cannot take the
    message, [main] ends with the exception, having printed nothing, and
    returns no exit status. *)
Example main_raises_in_closed_environment U :
  main U closed_environment [lit "main"] = ([], Raises UnicodeEncodeError) ∧
  main U closed_environment [lit "main"; lit "in.md"; lit "out.pdf"] =
    ([], Raises OSError).
Proof. split; reflexivity. Qed.

(** C8, amended. [main] catches nothing, so what it does depends on whether
    [exists], the formatter, the write and [print] return. With an argument
    count other than two, [main] prints the usage message and, if that print
    returns, returns 1. With two arguments and an input path that [exists]
    reports missing, it prints the error message and, if that print returns,
    returns 1. Whenever it returns 1 it has not tried to write. With two
    arguments, an input that [exists] reports present and that is read, and
    a formatter that returns, the pages are built and a write of the PDF
    bytes is tried; if the write and the print of the confirmation return,
    [main] has printed the confirmation with the number of pages and returns
    0. An exception of [exists] or of a print ends the run with that
    exception: nothing is printed then, and only for the print of the
    confirmation has the file been written. *)
Theorem main_outcomes U (env : environment) (argv : list str) :
  (length argv ≠ 3 →
   (print_message env Usage = Returns tt →
    main U env argv = ([Printed Usage], Returns 1%Z)) ∧
   (∀ e, print_message env Usage = Raises e → main U env argv = ([], Raises e))) ∧
  (∀ program input_path output_path,
     argv = [program; input_path; output_path] →
     (∀ e, path_exists env input_path = Raises e → main U env argv = ([], Raises e)) ∧
     (path_exists env input_path = Returns false →
      (print_message env (InputFileNotFound input_path) = Returns tt →
       main U env argv = ([Printed (InputFileNotFound input_path)], Returns 1%Z)) ∧
      (∀ e, print_message env (InputFileNotFound input_path) = Raises e →
            main U env argv = ([], Raises e)))) ∧
  (∀ trace, main U env argv = (trace, Returns 1%Z) → Forall (λ e, ¬ writes e) trace) ∧
  (∀ program input_path output_path markdown lines,
     argv = [program; input_path; output_path] →
     path_exists env input_path = Returns true →
     read_text env input_path = Returns markdown →
     markdown_to_lines U markdown = Returns lines →
     ∃ pages output,
       paginate lines 53 = Returns pages ∧
       generate_pdf pages = Returns output ∧
       (main U env argv).1 !! 0 = Some (Written output_path output) ∧
       (write_bytes env output_path output = Returns tt →
        (print_message env (PdfGenerated output_path (length pages)) = Returns tt →
         main U env argv =
           ([Written output_path output;
             Printed (PdfGenerated output_path (length pages))],
            Returns 0%Z)) ∧
        (∀ e, print_message env (PdfGenerated output_path (length pages)) = Raises e →
              main U env argv = ([Written output_path output], Raises e)))).
Proof.
  split; [|split; [|split]].
  - intros Hlen.
    assert (Hmain : main U env argv =
                    run_then (printing env Usage) (λ _, pure (Returns 1%Z)))
      by by destruct argv as [|a0 [|a1 [|a2 [|a3 argv]]]].
    rewrite Hmain. unfold run_then, printing, pure.
    split; [by intros ->|]. by intros e ->.
  - intros program input_path output_path ->.
    unfold main, run_then, printing, pure. cbn [fst snd]. split; [by intros e ->|].
    intros ->. cbn [negb fst snd app]. split; [by intros ->|]. by intros e ->.
  - intros trace Hrun.
    destruct (main_cases U env argv)
      as [(failure & Hmain & Hfailure)|[(_ & _ & Hmain)|(a0 & a1 & a2 & -> &
            [(_ & _ & Hmain)|(_ & markdown & lines & pages & output & _ & _ & _ & _ &
               [(_ & _ & Hmain)|(failure & Hmain & Hfailure)])])]];
      rewrite Hmain in Hrun.
    + injection Hrun as _ ->. by destruct (Hfailure 1%Z).
    + injection Hrun as <-. apply Forall_singleton. by intros [].
    + injection Hrun as <-. apply Forall_singleton. by intros [].
    + discriminate.
    + injection Hrun as _ ->. by destruct (Hfailure 1%Z).
  - intros program input_path output_path markdown lines -> Hexists Hread Hlines.
    destruct (paginate_returns lines 53 ltac:(lia)) as [pages Hpages].
    exists pages, (pdf_file pages).
    split; [done|]. split; [apply generate_pdf_returns|].
    unfold main, run_then, printing, pure, act. rewrite Hexists. cbn [negb fst snd].
    rewrite Hread, Hlines. cbn [fst snd].
    change (Z.of_nat LINES_PER_PAGE) with 53%Z. rewrite Hpages. cbn [fst snd].
    rewrite generate_pdf_returns. cbn [fst snd app].
    split.
    + by destruct (write_bytes env output_path (pdf_file pages)) as [[]| |].
    + intros ->. cbn [fst snd app]. split; [by intros ->|]. by intros e ->.
Qed.

Lemma main_outcomes_witness :
  length [lit "main"] ≠ 3 ∧
  main ascii_data hello_environment [lit "main"] = ([Printed Usage], Returns 1%Z) ∧
  main ascii_data closed_environment [lit "main"] = ([], Raises UnicodeEncodeError) ∧
  main ascii_data closed_environment [lit "main"; lit "in.md"; lit "out.pdf"] =
    ([], Raises OSError) ∧
  ∃ pages output,
    paginate [lit "hello"] 53 = Returns pages ∧
    generate_pdf pages = Returns output ∧
    main ascii_data hello_environment [lit "main"; lit "in.md"; lit "out.pdf"] =
      ([Written (lit "out.pdf") output;
        Printed (PdfGenerated (lit "out.pdf") (length pages))],
       Returns 0%Z).
Proof.
  split; [discriminate|]. split; [|split; [|split]].
  - destruct (main_outcomes ascii_data hello_environment [lit "main"]) as (Husage & _).
    destruct Husage as [Hprinted _]; [discriminate|]. by apply Hprinted.
  - destruct (main_outcomes ascii_data closed_environment [lit "main"]) as (Husage & _).
    destruct Husage as [_ Hraised]; [discriminate|]. by apply Hraised.
  - destruct (main_outcomes ascii_data closed_environment
                [lit "main"; lit "in.md"; lit "out.pdf"])
      as (_ & Hmissing & _).
    destruct (Hmissing (lit "main") (lit "in.md") (lit "out.pdf") eq_refl)
      as [Hraised _].
    by apply Hraised.
  - destruct (main_outcomes ascii_data hello_environment
                [lit "main"; lit "in.md"; lit "out.pdf"])
      as (_ & _ & _ & Hok).
    destruct (Hok (lit "main") (lit "in.md") (lit "out.pdf") (lit "hello") [lit "hello"]
                eq_refl eq_refl eq_refl eq_refl)
      as (pages & output & Hpages & Houtput & _ & Hrun).
    exists pages, output. split; [done|]. split; [done|].
    destruct (Hrun eq_refl) as [Hprinted _]. by apply Hprinted.
Defined.

(** * Further properties *)

(** ** [to_latin1] and [pdf_escape] *)

Lemma to_latin1_fixed value : is_latin1 value = true → to_latin1 value = value.
Proof.
  induction value as [|c value IH]; [done|]. cbn [is_latin1 forallb].
  intros [Hc Hvalue]%andb_prop. unfold to_latin1. cbn [fmap list_fmap].
  rewrite Hc. f_equal. by apply IH.
Qed.

(** X1. [to_latin1] keeps the length of its argument, its result is always
    accepted by [encode("latin-1")], it changes nothing in a text that is
    already Latin-1, and applying it twice is the same as applying it
    once. *)
Theorem to_latin1_encodable (value : str) :
  length (to_latin1 value) = length value ∧
  encode_latin1 (to_latin1 value) = Returns (latin1_bytes (to_latin1 value)) ∧
  to_latin1 (to_latin1 value) = to_latin1 value ∧
  (is_latin1 value = true → to_latin1 value = value).
Proof.
  split; [unfold to_latin1; apply length_fmap|].
  split; [apply encode_latin1_ok, is_latin1_to_latin1|].
  split; [apply to_latin1_fixed, is_latin1_to_latin1|apply to_latin1_fixed].
Qed.

Lemma to_latin1_encodable_witness :
  is_latin1 (lit "ab") = true ∧ to_latin1 (lit "ab") = lit "ab".
Proof.
  split; [reflexivity|].
  exact (proj2 (proj2 (proj2 (to_latin1_encodable (lit "ab")))) eq_refl).
Defined.

(** A character outside Latin-1 becomes a question mark. *)
Example to_latin1_euro : to_latin1 [97; 8364; 233]%N = [97; 63; 233]%N.
Proof. reflexivity. Qed.

Lemma well_escaped_escape_char c rest :
  well_escaped (escape_char c ++ rest) = well_escaped rest.
Proof.
  unfold escape_char.
  destruct (N.eqb_spec c BACKSLASH) as [->|Hb]; [reflexivity|].
  destruct (N.eqb_spec c LPAREN) as [->|Hl]; [reflexivity|].
  destruct (N.eqb_spec c RPAREN) as [->|Hr]; [reflexivity|].
  cbn [app well_escaped].
  rewrite (proj2 (N.eqb_neq c BACKSLASH) Hb), (proj2 (N.eqb_neq c LPAREN) Hl),
    (proj2 (N.eqb_neq c RPAREN) Hr). reflexivity.
Qed.

Lemma escape_char_length c : 1 ≤ length (escape_char c) ≤ 2.
Proof.
  unfold escape_char. destruct (c =? BACKSLASH)%N; [cbn; lia|].
  destruct (c =? LPAREN)%N; [cbn; lia|]. destruct (c =? RPAREN)%N; cbn; lia.
Qed.

(** X2. In the result of [pdf_escape] every backslash and every parenthesis
    of the text stands behind a backslash, so the result cannot end the PDF
    string it is put in; it is at least as long as the text and at most
    twice as long. *)
Theorem pdf_escape_well_escaped (text : str) :
  well_escaped (pdf_escape text) = true ∧
  length text ≤ length (pdf_escape text) ≤ 2 * length text.
Proof.
  induction text as [|c text (IHw & IHl & IHu)]; [cbn; split; [done|lia]|].
  rewrite pdf_escape_cons, well_escaped_escape_char, length_app. cbn [length].
  split; [done|].
  pose proof (escape_char_length c). unfold str, char in *. lia.
Qed.

(** The stream of a line with a parenthesis and a backslash. *)
Example pdf_escape_unbalanced :
  pdf_escape (lit "a)\") = lit "a\)\\" ∧ well_escaped (lit "a)\") = false.
Proof. split; reflexivity. Qed.

(** ** [wrap_text] *)

(** X3. [wrap_text] raises [ValueError] for a width that is not positive,
    whatever the text; for a positive width it returns at least one line,
    and no line is longer than the width. *)
Theorem wrap_text_width (text : str) (width : Z) :
  ((width ≤ 0)%Z → wrap_text text width = Raises ValueError) ∧
  ((0 < width)%Z →
   ∃ first rest,
     wrap_text text width = Returns (first :: rest) ∧
     Forall (λ l, length l ≤ Z.to_nat width) (first :: rest)).
Proof. split; [apply wrap_text_raises|apply wrap_text_returns]. Qed.

Lemma wrap_text_width_witness :
  (0 < 3)%Z ∧
  ∃ first rest,
    wrap_text (lit "abcd ef") 3 = Returns (first :: rest) ∧
    Forall (λ l, length l ≤ Z.to_nat 3) (first :: rest).
Proof.
  split; [lia|]. apply (proj2 (wrap_text_width (lit "abcd ef") 3)). lia.
Defined.

Example wrap_text_breaks_long_word :
  wrap_text (lit "abcd ef") 3 = Returns [lit "abc"; lit "d"; lit "ef"].
Proof. vm_compute. reflexivity. Qed.

(** *** Texts that need no wrapping *)

Lemma is_wrap_space_isspace c : is_wrap_space c = true → isspace c = true.
Proof.
  unfold is_wrap_space, isspace. intros [H|H]%orb_prop.
  - by rewrite H.
  - apply N.eqb_eq in H as ->. reflexivity.
Qed.

Lemma forallb_replicate (p : char → bool) k c : p c = true → forallb p (replicate k c) = true.
Proof. intros Hc. induction k as [|k IH]; [done|]. cbn. by rewrite Hc, IH. Qed.

Lemma forallb_take (p : char → bool) (l : str) : ∀ n,
  forallb p l = true → forallb p (take n l) = true.
Proof.
  induction l as [|c l IH]; intros [|n] H; try done.
  cbn in *. apply andb_prop in H as [Hc Hl]. by rewrite Hc, IH.
Qed.

Lemma forallb_drop (p : char → bool) (l : str) : ∀ n,
  forallb p l = true → forallb p (drop n l) = true.
Proof.
  induction l as [|c l IH]; intros [|n] H; try done.
  cbn in *. apply andb_prop in H as [_ Hl]. by apply IH.
Qed.

Lemma expandtabs_from_wrap_space tabsize s : ∀ col,
  forallb is_wrap_space s = true →
  forallb is_wrap_space (expandtabs_from tabsize col s) = true.
Proof.
  induction s as [|c s IH]; intros col H; [done|].
  cbn [forallb] in H. apply andb_prop in H as [Hc Hs]. cbn [expandtabs_from].
  destruct (c =? TAB)%N.
  - rewrite forallb_app, (IH _ Hs), andb_true_r. by apply forallb_replicate.
  - destruct ((c =? LF)%N || (c =? CR)%N); cbn [forallb]; rewrite Hc; by apply IH.
Qed.

Lemma expandtabs_from_no_tab tabsize s : ∀ col,
  TAB ∉ s → expandtabs_from tabsize col s = s.
Proof.
  induction s as [|c s IH]; intros col H; [done|].
  apply not_elem_of_cons in H as [Hc Hs]. cbn [expandtabs_from].
  destruct (N.eqb_spec c TAB) as [->|_]; [done|].
  destruct ((c =? LF)%N || (c =? CR)%N); f_equal; by apply IH.
Qed.

Lemma split_chunks_wrap_space s :
  forallb is_wrap_space s = true →
  split_chunks s = match s with [] => [] | _ => [s] end.
Proof.
  induction s as [|c s IH]; [done|]. cbn [forallb].
  intros [Hc Hs]%andb_prop. cbn [split_chunks]. rewrite (IH Hs).
  destruct s as [|d s']; [done|].
  cbn [forallb] in Hs. apply andb_prop in Hs as [Hd _]. by rewrite Hc, Hd.
Qed.

Lemma split_chunks_concat s : concat (split_chunks s) = s.
Proof.
  induction s as [|c s IH]; [done|]. cbn [split_chunks].
  destruct (split_chunks s) as [|[|d chunk] rest]; cbn in *; try by rewrite <- IH.
  destruct (Bool.eqb (is_wrap_space c) (is_wrap_space d)); cbn; by rewrite <- IH.
Qed.

Lemma split_chunks_nonempty s : Forall (λ chunk, chunk ≠ []) (split_chunks s).
Proof.
  induction s as [|c s IH]; [apply Forall_nil_2|]. cbn [split_chunks].
  destruct (split_chunks s) as [|[|d chunk] rest].
  - by apply Forall_singleton.
  - by apply Forall_cons_2.
  - apply Forall_cons in IH as [_ IH].
    destruct (Bool.eqb (is_wrap_space c) (is_wrap_space d)).
    + by apply Forall_cons_2.
    + apply Forall_cons_2; [done|]. by apply Forall_cons_2.
Qed.

Lemma no_start_drop (chunk : str) (chunks : list str) :
  match chunk :: chunks with
  | first :: rest =>
      if is_blank first && bool_decide (([] : list str) ≠ []) then rest else chunk :: chunks
  | [] => chunk :: chunks
  end = chunk :: chunks.
Proof.
  rewrite (bool_decide_eq_false_2 (([] : list str) ≠ [])) by (intros H; by apply H).
  by rewrite andb_false_r.
Qed.

Lemma wrap_line_blank_chunk width chunk :
  1 ≤ width → forallb isspace chunk = true →
  wrap_line width [chunk] [] =
  (if length chunk <=? width then [] else [drop width chunk], []).
Proof.
  intros Hw Hblank. unfold wrap_line. rewrite no_start_drop. cbn [fill_line].
  rewrite Nat.add_0_l.
  destruct (Nat.leb_spec (length chunk) width) as [Hfit|Hlong].
  - cbn [fill_line app last]. unfold is_blank. rewrite Hblank. reflexivity.
  - destruct (Nat.ltb_spec width (length chunk)) as [_|]; [|lia].
    unfold handle_long_word. destruct (Nat.ltb_spec width 1) as [|_]; [lia|].
    rewrite Nat.sub_0_r. cbn [app last]. unfold is_blank.
    by rewrite forallb_take.
Qed.

Lemma blank_chunk_loop width :
  1 ≤ width → ∀ fuel chunk,
  forallb isspace chunk = true → S (length chunk) ≤ fuel →
  wrap_chunks_loop fuel width [chunk] [] = Returns [].
Proof.
  intros Hw. induction fuel as [|fuel IH]; intros chunk Hblank Hfuel; [lia|].
  cbn [wrap_chunks_loop]. rewrite wrap_line_blank_chunk by done.
  destruct (Nat.leb_spec (length chunk) width) as [Hfit|Hlong].
  - by destruct fuel.
  - apply IH; [by apply forallb_drop|]. rewrite length_drop. lia.
Qed.

Lemma wrap_text_of_spaces text (width : Z) :
  forallb is_wrap_space text = true → (0 < width)%Z →
  wrap_text text width = Returns [[]].
Proof.
  intros Hspaces Hwidth. unfold wrap_text, textwrap_wrap.
  destruct (Z.leb_spec width 0) as [|_]; [lia|].
  pose proof (expandtabs_from_wrap_space 8 text 0 Hspaces) as Hexpanded.
  fold (expandtabs 8 text) in Hexpanded.
  rewrite (split_chunks_wrap_space _ Hexpanded).
  destruct (expandtabs 8 text) as [|c expanded] eqn:Heq; [reflexivity|].
  rewrite blank_chunk_loop; [reflexivity|lia| |].
  - rewrite forallb_forall in *. intros x Hx. by apply is_wrap_space_isspace, Hexpanded.
  - unfold wrap_measure. cbn [concat]. rewrite app_nil_r. cbn [length].
    unfold str, char in *. lia.
Qed.

(** X4. For a positive width, [wrap_text] returns the single empty line for
    the empty text and for every text made only of spaces, tabs and the
    other characters of [textwrap]'s white space. *)
Theorem wrap_text_blank (text : str) (width : Z) :
  forallb is_wrap_space text = true → (0 < width)%Z →
  wrap_text text width = Returns [[]].
Proof. apply wrap_text_of_spaces. Qed.

Lemma wrap_text_blank_witness :
  forallb is_wrap_space ([TAB] ++ replicate 7 SPACE) = true ∧ (0 < 4)%Z ∧
  wrap_text ([TAB] ++ replicate 7 SPACE) 4 = Returns [[]].
Proof.
  split; [reflexivity|]. split; [lia|].
  apply (wrap_text_blank ([TAB] ++ replicate 7 SPACE) 4); [reflexivity|lia].
Defined.

Lemma fill_line_all width chunks : ∀ cur_line cur_len,
  cur_len + length (concat chunks) ≤ width →
  fill_line width chunks cur_line cur_len =
  ([], cur_line ++ chunks, cur_len + length (concat chunks)).
Proof.
  induction chunks as [|chunk chunks IH]; intros cur_line cur_len H; cbn [fill_line concat].
  - cbn [length]. by rewrite app_nil_r, Nat.add_0_r.
  - cbn [concat] in H. rewrite length_app in H.
    destruct (Nat.leb_spec (cur_len + length chunk) width) as [_|]; [|lia].
    rewrite IH by lia. rewrite <- app_assoc, length_app. cbn [app].
    f_equal. lia.
Qed.

Lemma rstrip_last_nonspace s :
  rstrip s ≠ [] → ∃ x, last (rstrip s) = Some x ∧ isspace x = false.
Proof.
  induction s as [|c s IH]; [done|]. cbn [rstrip].
  destruct (rstrip s) as [|r0 r].
  - destruct (isspace c) eqn:Hc; [done|]. intros _. by exists c.
  - intros _. rewrite last_cons_cons. by apply IH.
Qed.

Lemma last_chunk_not_blank text chunk :
  rstrip text = text → last (split_chunks text) = Some chunk → is_blank chunk = false.
Proof.
  intros Hstripped Hlast.
  apply last_Some in Hlast as [init Hchunks].
  assert (Hne : chunk ≠ []).
  { pose proof (split_chunks_nonempty text) as Hall. rewrite Hchunks in Hall.
    rewrite Forall_app, Forall_singleton in Hall. by destruct Hall. }
  assert (Htext : text = concat init ++ chunk).
  { rewrite <- (split_chunks_concat text) at 1. rewrite Hchunks, concat_app. cbn.
    by rewrite app_nil_r. }
  destruct (rstrip_last_nonspace text) as (x & Hx & Hspace).
  { rewrite Hstripped, Htext. by destruct (concat init), chunk. }
  rewrite Hstripped, Htext, last_app in Hx.
  destruct (last chunk) as [y|] eqn:Hy; [|by apply last_None in Hy].
  injection Hx as ->. apply last_Some in Hy as [chunk' ->].
  unfold is_blank. rewrite forallb_app. cbn. rewrite Hspace.
  by rewrite andb_false_r.
Qed.

Lemma wrap_line_fitting width chunks text :
  chunks ≠ [] → concat chunks = text → length text ≤ width →
  (∀ chunk, last chunks = Some chunk → is_blank chunk = false) →
  wrap_line width chunks [] = ([], [text]).
Proof.
  destruct chunks as [|c cs]; [done|]. intros _ <- Hfits Hlast.
  unfold wrap_line. rewrite no_start_drop.
  rewrite fill_line_all by exact Hfits.
  cbn [app]. destruct (last (_ :: _)) as [chunk|] eqn:Hchunk.
  - by rewrite (Hlast chunk eq_refl).
  - done.
Qed.

Lemma wrap_text_fitting text (width : Z) :
  text ≠ [] → rstrip text = text → TAB ∉ text →
  (Z.of_nat (length text) ≤ width)%Z →
  wrap_text text width = Returns [text].
Proof.
  intros Hne Hstripped Htab Hfits. unfold wrap_text, textwrap_wrap.
  assert (0 < length text) by (destruct text; [done|cbn; lia]).
  destruct (Z.leb_spec width 0) as [|_]; [lia|].
  unfold expandtabs. rewrite expandtabs_from_no_tab by done.
  destruct (split_chunks text) as [|c cs] eqn:Hchunks.
  { pose proof (split_chunks_concat text) as Hc. rewrite Hchunks in Hc. by subst text. }
  destruct (wrap_measure (c :: cs)) as [|fuel] eqn:Hfuel.
  { unfold wrap_measure in Hfuel. cbn [length] in Hfuel. lia. }
  cbn [wrap_chunks_loop].
  rewrite (wrap_line_fitting _ _ text); [by destruct fuel|done| | |].
  - rewrite <- Hchunks. apply split_chunks_concat.
  - lia.
  - intros chunk Hlast. rewrite <- Hchunks in Hlast. by eapply last_chunk_not_blank.
Qed.

(** X5. [wrap_text] returns a text as its only line, unchanged, when the
    text is not empty, does not end in white space, holds no tab and is not
    longer than the width. *)
Theorem wrap_text_short (text : str) (width : Z) :
  text ≠ [] → rstrip text = text → TAB ∉ text →
  (Z.of_nat (length text) ≤ width)%Z →
  wrap_text text width = Returns [text].
Proof. apply wrap_text_fitting. Qed.

Lemma wrap_text_short_witness :
  rstrip (lit "  two  words") = lit "  two  words" ∧
  (Z.of_nat (length (lit "  two  words")) ≤ 12)%Z ∧
  wrap_text (lit "  two  words") 12 = Returns [lit "  two  words"].
Proof.
  split; [reflexivity|]. split; [vm_compute; discriminate|].
  apply (wrap_text_short (lit "  two  words") 12).
  - discriminate.
  - reflexivity.
  - intros H. vm_compute in H.
    repeat (apply elem_of_cons in H as [H|H]; [discriminate|]).
    by apply elem_of_nil in H.
  - vm_compute. discriminate.
Defined.

(** ** [markdown_to_lines] *)

Lemma process_line_adds U state raw state' :
  process_line U state raw = Returns state' →
  ∃ added, added ≠ [] ∧ state'.2 = state.2 ++ added.
Proof.
  destruct state as [in_code_block lines]. unfold process_line. intros H.
  destruct (startswith (strip (rstrip raw)) (lit "```")).
  { apply Returns_inj in H as <-. by exists [[]]. }
  destruct in_code_block.
  { destruct (wrap_text_returns (rstrip raw) (MAX_CHARS_PER_LINE - 4))
      as (w & ws & Hw & _); [done|].
    rewrite Hw in H. cbn [and_then] in H. apply Returns_inj in H as <-.
    eexists. split; [|done]. intros Heq. by apply fmap_nil_inv in Heq. }
  destruct (strip (rstrip raw)) as [|s0 stripped].
  { apply Returns_inj in H as <-. by exists [[]]. }
  destruct (match_heading (rstrip raw)) as [[hashes text]|].
  { destruct (wrap_text_returns (upper U (strip text)) MAX_CHARS_PER_LINE)
      as (w & ws & Hw & _); [done|].
    rewrite Hw in H. cbn [and_then] in H. apply Returns_inj in H as <-. cbn [snd].
    destruct (last lines) as [[|]|].
    - by exists ((w :: ws) ++ [[]]).
    - exists ([[]] ++ (w :: ws) ++ [[]]). split; [done|]. by rewrite <- app_assoc.
    - by exists ((w :: ws) ++ [[]]). }
  destruct (match_bullet (rstrip raw)) as [[mark text]|].
  { destruct (wrap_text_returns (strip text)
                (MAX_CHARS_PER_LINE - Z.of_nat (length (lit "- "))))
      as (w & ws & Hw & _); [done|].
    rewrite Hw in H. cbn [and_then] in H. apply Returns_inj in H as <-.
    eexists. split; [|done]. unfold item_lines. by cbn [imap]. }
  destruct (match_numbered U (rstrip raw)) as [[number text]|].
  { destruct (Z.le_gt_cases (MAX_CHARS_PER_LINE - Z.of_nat (length (number ++ [SPACE]))) 0)
      as [Hbad|Hok].
    - rewrite wrap_text_raises in H by done. discriminate.
    - destruct (wrap_text_returns (strip text)
                  (MAX_CHARS_PER_LINE - Z.of_nat (length (number ++ [SPACE]))))
        as (w & ws & Hw & _); [lia|].
      rewrite Hw in H. cbn [and_then] in H. apply Returns_inj in H as <-.
      eexists. split; [|done]. unfold item_lines. by cbn [imap]. }
  destruct (wrap_text_returns (s0 :: stripped) MAX_CHARS_PER_LINE)
    as (w & ws & Hw & _); [done|].
  rewrite Hw in H. cbn [and_then] in H. apply Returns_inj in H as <-.
  by exists (w :: ws).
Qed.

(** X6. The loop of the formatter only appends: after any input lines, the
    lines it had are still there, in front, and every input line has added
    at least one line. *)
Theorem formatter_loop_appends U (raws : list str) (state state' : bool * list str) :
  process_lines U state raws = Returns state' →
  ∃ added, state'.2 = state.2 ++ added ∧ length raws ≤ length added.
Proof.
  revert state. induction raws as [|raw raws IH]; intros state H.
  - cbn in H. apply Returns_inj in H as <-. exists []. by rewrite app_nil_r.
  - cbn [process_lines] in H.
    destruct (process_line U state raw) as [state1| |] eqn:Hline; [|done|done].
    cbn [and_then] in H.
    destruct (process_line_adds U state raw state1 Hline) as (first & Hne & Hfirst).
    destruct (IH state1 H) as (added & Hadded & Hlen).
    exists (first ++ added). rewrite Hadded, Hfirst, <- app_assoc. split; [done|].
    rewrite length_app. cbn [length]. destruct first; [done|cbn; lia].
Qed.

Lemma formatter_loop_appends_witness :
  process_lines ascii_data (false, [lit "kept"]) [lit "# a"; lit "b"] =
    Returns (false, [lit "kept"; []; lit "A"; []; lit "b"]) ∧
  ∃ added, [lit "kept"; []; lit "A"; []; lit "b"] = [lit "kept"] ++ added ∧
           2 ≤ length added.
Proof.
  assert (Hrun : process_lines ascii_data (false, [lit "kept"]) [lit "# a"; lit "b"] =
                 Returns (false, [lit "kept"; []; lit "A"; []; lit "b"]))
    by (vm_compute; reflexivity).
  split; [exact Hrun|].
  exact (formatter_loop_appends ascii_data _ _ _ Hrun).
Defined.

Lemma pop_trailing_blank_last lines : last (pop_trailing_blank lines) ≠ Some [].
Proof.
  induction lines as [|l lines IH]; [done|]. cbn [pop_trailing_blank].
  destruct (pop_trailing_blank lines) as [|k kept].
  - destruct l; [done|]. cbn. by intros [=].
  - by rewrite last_cons_cons.
Qed.

Lemma pop_trailing_blank_split lines :
  ∃ k, lines = pop_trailing_blank lines ++ replicate k [].
Proof.
  induction lines as [|l lines (k & IH)]; [by exists 0|]. cbn [pop_trailing_blank].
  destruct (pop_trailing_blank lines) as [|k0 kept].
  - destruct l as [|c l].
    + exists (S k). cbn in *. by rewrite <- IH.
    + exists k. cbn in *. by rewrite <- IH.
  - exists k. cbn in *. by rewrite <- IH.
Qed.

(** X7. What the formatter returns never ends in an empty line, and it is
    what the loop over the input lines has built, less the empty lines at its
    end: no other line is dropped or changed. *)
Theorem formatter_trims_only_the_end U (markdown : str) (lines : list str) :
  markdown_to_lines U markdown = Returns lines →
  last lines ≠ Some [] ∧
  ∃ state k,
    process_lines U (false, []) (splitlines markdown) = Returns state ∧
    state.2 = lines ++ replicate k [].
Proof.
  unfold markdown_to_lines. intros H.
  destruct (process_lines U (false, []) (splitlines markdown)) as [state| |]; [|done|done].
  cbn [and_then] in H. apply Returns_inj in H as <-.
  split; [apply pop_trailing_blank_last|].
  destruct (pop_trailing_blank_split state.2) as [k Hk]. by exists state, k.
Qed.

Lemma formatter_trims_only_the_end_witness :
  markdown_to_lines ascii_data (lit "a" ++ [LF; LF] ++ lit "b" ++ [LF; LF; LF]) =
    Returns [lit "a"; []; lit "b"] ∧
  last [lit "a"; []; lit "b"] ≠ Some [].
Proof.
  assert (Hrun : markdown_to_lines ascii_data
                   (lit "a" ++ [LF; LF] ++ lit "b" ++ [LF; LF; LF]) =
                 Returns [lit "a"; []; lit "b"]) by (vm_compute; reflexivity).
  split; [exact Hrun|].
  exact (proj1 (formatter_trims_only_the_end ascii_data _ _ Hrun)).
Defined.

Lemma pop_trailing_blank_all_blank k : pop_trailing_blank (replicate k []) = [].
Proof. induction k as [|k IH]; [done|]. cbn. by rewrite IH. Qed.

Lemma span_all (p : char → bool) s : (span p s).2 = [] → forallb p s = true.
Proof.
  induction s as [|c s IH]; [done|]. cbn.
  destruct (p c); [|done]. destruct (span p s) as [a b]. cbn in *. exact IH.
Qed.

Lemma strip_nil_rstrip s : strip s = [] → rstrip s = [].
Proof.
  unfold strip, lstrip. intros H. apply span_all in H.
  destruct (rstrip s) as [|r0 r] eqn:Hr; [done|].
  destruct (rstrip_last_nonspace s) as (x & Hx & Hspace); [by rewrite Hr|].
  rewrite Hr in Hx. apply last_Some in Hx as [init Hinit].
  rewrite Hinit, forallb_app in H. cbn in H. rewrite Hspace in H.
  by rewrite andb_false_r in H.
Qed.

Lemma process_line_blank_or_fence U in_code_block lines raw :
  blank_or_fence raw →
  ∃ in_code_block',
    process_line U (in_code_block, lines) raw = Returns (in_code_block', lines ++ [[]]).
Proof.
  intros [Hblank|Hfence]; unfold process_line.
  - rewrite Hblank. change (startswith [] (lit "```")) with false. cbv iota.
    destruct in_code_block; [|by eexists].
    apply strip_nil_rstrip in Hblank. rewrite rstrip_idemp in Hblank. rewrite Hblank.
    change (wrap_text [] (MAX_CHARS_PER_LINE - 4)) with (Returns [[]] : outcome (list str)).
    by eexists.
  - unfold fence in Hfence. rewrite Hfence. by eexists.
Qed.

Lemma process_lines_blank_or_fence U raws : ∀ state,
  Forall blank_or_fence raws →
  ∃ in_code_block',
    process_lines U state raws =
      Returns (in_code_block', state.2 ++ replicate (length raws) []).
Proof.
  induction raws as [|raw raws IH]; intros [in_code_block lines] Hall.
  - exists in_code_block. cbn. by rewrite app_nil_r.
  - apply Forall_cons in Hall as [Hraw Hall]. cbn [process_lines].
    destruct (process_line_blank_or_fence U in_code_block lines raw Hraw) as [b ->].
    cbn [and_then]. destruct (IH (b, lines ++ [[]]) Hall) as [b' ->].
    exists b'. cbn [snd length replicate]. by rewrite <- app_assoc.
Qed.

(** X8. A document in which every line is blank or is a fence line yields no
    line at all; the empty document is one of them. *)
Theorem blank_document_yields_nothing U (markdown : str) :
  Forall blank_or_fence (splitlines markdown) →
  markdown_to_lines U markdown = Returns [].
Proof.
  intros Hall. unfold markdown_to_lines.
  destruct (process_lines_blank_or_fence U (splitlines markdown) (false, []) Hall)
    as [b ->].
  cbn [and_then snd app]. by rewrite pop_trailing_blank_all_blank.
Qed.

Lemma blank_document_yields_nothing_witness :
  markdown_to_lines ascii_data ([LF] ++ lit "  " ++ [LF] ++ lit "```" ++ [LF; TAB; LF]) =
    Returns [].
Proof.
  apply (blank_document_yields_nothing ascii_data).
  vm_compute. repeat (apply Forall_cons_2; [by (left + right)|]). apply Forall_nil_2.
Defined.

(** *** Headings, bullets and code lines *)

Lemma span_hash_none (line : str) :
  match line with c :: _ => (c =? HASH)%N = false | [] => True end →
  match_heading line = None.
Proof.
  intros H. unfold match_heading. destruct line as [|c line]; [done|].
  cbn [span]. by rewrite H.
Qed.

Lemma isspace_not_hash c : isspace c = true → (c =? HASH)%N = false.
Proof. intros H. by destruct (N.eqb_spec c HASH) as [->|]. Qed.

Lemma heading_line_step U lines raw level sp t0 text' :
  heading_shape (rstrip raw) level sp t0 text' →
  process_line U (false, lines) raw =
  let* wrapped := wrap_text (upper U (strip (t0 :: text'))) MAX_CHARS_PER_LINE in
  Returns (false,
           match last lines with
           | Some (_ :: _) => lines ++ [[]]
           | _ => lines
           end ++ wrapped ++ [[]]).
Proof.
  intros [Hline [Hmin Hmax] Hsp Hspne Ht0 HLF].
  destruct level as [|level]; [lia|].
  destruct sp as [|s0 sp']; [done|].
  assert (Hs0 : isspace s0 = true) by (cbn in Hsp; by apply andb_prop in Hsp as [? _]).
  assert (Hstrip : strip (rstrip raw) =
                   HASH :: rstrip (replicate level HASH ++ (s0 :: sp') ++ t0 :: text')).
  { rewrite Hline. apply (strip_shape [] HASH); done. }
  assert (Hmatch : match_heading (rstrip raw) = Some (replicate (S level) HASH, t0 :: text')).
  { rewrite Hline. unfold match_heading.
    rewrite span_app;
      [|by apply forallb_replicate|cbn [app]; by apply isspace_not_hash].
    rewrite length_replicate.
    destruct (Nat.leb_spec 1 (S level)) as [_|]; [|lia].
    destruct (Nat.leb_spec (S level) 6) as [_|]; [|lia]. cbn [andb].
    by rewrite spaces_then_rest_shape. }
  unfold process_line. rewrite Hstrip, Hmatch.
  change (startswith (HASH :: rstrip (replicate level HASH ++ (s0 :: sp') ++ t0 :: text'))
            (lit "```")) with false.
  reflexivity.
Qed.

(** X9. A line of one to six hash signs, white space and a text is rendered
    as the text, stripped, in upper case and wrapped at the maximum width. An
    empty line is put before it when the last line so far is not empty, and
    an empty line is put after it. The number of hash signs does not show in
    the result. *)
Theorem heading_rendering U (lines : list str) (raw sp : str) (level : nat) (t0 : char)
    (text' : str) :
  heading_shape (rstrip raw) level sp t0 text' →
  ∃ first rest,
    wrap_text (upper U (strip (t0 :: text'))) MAX_CHARS_PER_LINE =
      Returns (first :: rest) ∧
    process_line U (false, lines) raw =
      Returns (false,
               match last lines with
               | Some (_ :: _) => lines ++ [[]]
               | _ => lines
               end ++ (first :: rest) ++ [[]]).
Proof.
  intros Hshape. rewrite (heading_line_step U lines raw level sp t0 text' Hshape).
  destruct (wrap_text_returns (upper U (strip (t0 :: text'))) MAX_CHARS_PER_LINE)
    as (first & rest & Hwrap & _); [done|].
  exists first, rest. split; [done|]. by rewrite Hwrap.
Qed.

Lemma heading_rendering_witness :
  heading_shape (rstrip (lit "###  Set up ")) 3 (lit "  ") 83%N (lit "et up") ∧
  ∃ first rest,
    wrap_text (upper ascii_data (strip (lit "Set up"))) MAX_CHARS_PER_LINE =
      Returns (first :: rest) ∧
    process_line ascii_data (false, [lit "text"]) (lit "###  Set up ") =
      Returns (false, ([lit "text"] ++ [[]]) ++ (first :: rest) ++ [[]]).
Proof.
  assert (Hshape : heading_shape (rstrip (lit "###  Set up ")) 3 (lit "  ") 83%N
                     (lit "et up")).
  { split; try done; [lia|]. intros H. vm_compute in H.
    repeat (apply elem_of_cons in H as [H|H]; [discriminate|]).
    by apply elem_of_nil in H. }
  split; [exact Hshape|].
  exact (heading_rendering ascii_data [lit "text"] (lit "###  Set up ") (lit "  ") 3 83%N
           (lit "et up") Hshape).
Defined.

Example heading_levels_look_alike :
  markdown_to_lines ascii_data (lit "# Set up") = Returns [lit "SET UP"] ∧
  markdown_to_lines ascii_data (lit "###### Set up") = Returns [lit "SET UP"] ∧
  markdown_to_lines ascii_data (lit "####### Set up") = Returns [lit "####### Set up"].
Proof. repeat split; vm_compute; reflexivity. Qed.

Lemma bullet_line_step U lines raw ws mark sp b0 body' :
  bullet_shape (rstrip raw) ws mark sp b0 body' →
  process_line U (false, lines) raw =
  let* body_lines :=
    wrap_text (strip (b0 :: body'))
      (MAX_CHARS_PER_LINE - Z.of_nat (length (lit "- "))) in
  Returns (false, lines ++ item_lines (lit "- ") body_lines).
Proof.
  intros [Hline Hws Hmark Hsp Hspne Hb0 HLF].
  assert (Hm : isspace mark = false ∧ (mark =? HASH)%N = false ∧
               (mark =? BACKTICK)%N = false ∧
               ((mark =? DASH)%N || (mark =? STAR)%N) = true)
    by (destruct Hmark as [->| ->]; done).
  destruct Hm as (Hmspace & Hmhash & Hmtick & Hmbullet).
  assert (Hstrip : strip (rstrip raw) = mark :: rstrip (sp ++ b0 :: body')).
  { rewrite Hline. by apply strip_shape. }
  assert (Hhead : match_heading (rstrip raw) = None).
  { rewrite Hline. apply span_hash_none. destruct ws as [|w ws']; [done|].
    cbn in Hws. apply andb_prop in Hws as [Hw _]. by apply isspace_not_hash. }
  assert (Hbullet : match_bullet (rstrip raw) = Some (ws ++ [mark], b0 :: body')).
  { rewrite Hline. unfold match_bullet. rewrite span_app by done.
    rewrite Hmbullet. by rewrite spaces_then_rest_shape. }
  unfold process_line. rewrite Hstrip, Hhead, Hbullet.
  assert (Hfence : startswith (mark :: rstrip (sp ++ b0 :: body')) (lit "```") = false).
  { change (startswith (mark :: rstrip (sp ++ b0 :: body')) (lit "```"))
      with ((mark =? BACKTICK)%N && startswith (rstrip (sp ++ b0 :: body')) (lit "``")).
    by rewrite Hmtick. }
  rewrite Hfence. reflexivity.
Qed.

(** X10. A bullet line, with [-] or with [*] and however it is indented, is
    rendered with the prefix [- ]: the body is stripped and wrapped at the
    maximum width less two, the first segment follows [- ] and every other
    segment follows two spaces. The indentation of the line and the choice of
    the mark do not show in the result. *)
Theorem bullet_rendering U (lines : list str) (raw ws sp : str) (mark b0 : char)
    (body' : str) :
  bullet_shape (rstrip raw) ws mark sp b0 body' →
  ∃ first rest,
    wrap_text (strip (b0 :: body')) (MAX_CHARS_PER_LINE - 2) = Returns (first :: rest) ∧
    process_line U (false, lines) raw =
      Returns (false,
               lines ++ (lit "- " ++ first) :: ((λ chunk, lit "  " ++ chunk) <$> rest)).
Proof.
  intros Hshape. rewrite (bullet_line_step U lines raw ws mark sp b0 body' Hshape).
  destruct (wrap_text_returns (strip (b0 :: body')) (MAX_CHARS_PER_LINE - 2))
    as (first & rest & Hwrap & _); [done|].
  exists first, rest. split; [done|].
  change (MAX_CHARS_PER_LINE - Z.of_nat (length (lit "- ")))%Z
    with (MAX_CHARS_PER_LINE - 2)%Z.
  rewrite Hwrap. cbn [and_then]. do 3 f_equal. unfold item_lines. cbn [imap]. f_equal.
  apply imap_const.
Qed.

Lemma bullet_rendering_witness :
  bullet_shape (rstrip (lit "   * item")) (lit "   ") STAR [SPACE] 105%N (lit "tem") ∧
  ∃ first rest,
    wrap_text (strip (lit "item")) (MAX_CHARS_PER_LINE - 2) = Returns (first :: rest) ∧
    process_line ascii_data (false, []) (lit "   * item") =
      Returns (false, (lit "- " ++ first) :: ((λ chunk, lit "  " ++ chunk) <$> rest)).
Proof.
  assert (Hshape : bullet_shape (rstrip (lit "   * item")) (lit "   ") STAR [SPACE]
                     105%N (lit "tem")).
  { split; try done; [by right|]. intros H. vm_compute in H.
    repeat (apply elem_of_cons in H as [H|H]; [discriminate|]).
    by apply elem_of_nil in H. }
  split; [exact Hshape|].
  exact (bullet_rendering ascii_data [] (lit "   * item") (lit "   ") [SPACE] STAR 105%N
           (lit "tem") Hshape).
Defined.

Example bullet_wraps_with_two_spaces :
  markdown_to_lines ascii_data (lit "  * " ++ replicate 92 97%N ++ lit " bb") =
  Returns [lit "- " ++ replicate 92 97%N; lit "  bb"].
Proof. vm_compute. reflexivity. Qed.

(** X11. Inside a code block, a line that is not a fence line and that is
    not empty once its trailing white space is removed, holds no tab and has
    at most ninety characters is emitted as it is behind four spaces: its
    own indentation is kept, and it is not read as a heading, a bullet or a
    numbered item. *)
Theorem code_line_kept U (lines : list str) (raw : str) :
  rstrip raw ≠ [] → TAB ∉ rstrip raw → length (rstrip raw) ≤ 90 →
  startswith (strip (rstrip raw)) fence = false →
  process_line U (true, lines) raw =
    Returns (true, lines ++ [lit "    " ++ rstrip raw]).
Proof.
  intros Hne Htab Hlen Hfence. unfold process_line.
  unfold fence in Hfence. rewrite Hfence.
  change (MAX_CHARS_PER_LINE - 4)%Z with 90%Z.
  rewrite (wrap_text_fitting (rstrip raw) 90);
    [|done|apply rstrip_idemp|done|unfold str, char in *; lia].
  cbn [and_then fmap list_fmap]. by destruct (rstrip raw).
Qed.

Lemma code_line_kept_witness :
  rstrip (lit "  # not a heading  ") = lit "  # not a heading" ∧
  process_line ascii_data (true, []) (lit "  # not a heading  ") =
    Returns (true, [lit "    " ++ rstrip (lit "  # not a heading  ")]).
Proof.
  split; [reflexivity|].
  apply (code_line_kept ascii_data [] (lit "  # not a heading  ")).
  - discriminate.
  - intros H. vm_compute in H.
    repeat (apply elem_of_cons in H as [H|H]; [discriminate|]).
    by apply elem_of_nil in H.
  - vm_compute. lia.
  - reflexivity.
Defined.

(** *** Lines of text *)

Lemma span_spec (p : char → bool) s :
  s = (span p s).1 ++ (span p s).2 ∧
  forallb p (span p s).1 = true ∧
  match (span p s).2 with c :: _ => p c = false | [] => True end.
Proof.
  induction s as [|c s IH]; [done|]. cbn [span].
  destruct (p c) eqn:Hc; [|done].
  destruct (span p s) as [a b]. cbn [fst snd] in *.
  destruct IH as (-> & Ha & Hb). cbn. by rewrite Hc, Ha.
Qed.

Lemma strip_cons_shape (line : str) c0 rest :
  strip line = c0 :: rest →
  ∃ ws, rstrip line = ws ++ c0 :: rest ∧ forallb isspace ws = true ∧ isspace c0 = false.
Proof.
  unfold strip, lstrip. intros H.
  destruct (span_spec isspace (rstrip line)) as (Heq & Hws & Hc0).
  rewrite H in Heq, Hc0. by exists (span isspace (rstrip line)).1.
Qed.

Lemma rstrip_strip (line : str) : rstrip (strip line) = strip line.
Proof.
  destruct (strip line) as [|c0 rest] eqn:Hstrip; [done|].
  destruct (strip_cons_shape line c0 rest Hstrip) as (ws & Hline & Hws & Hc0).
  pose proof (rstrip_idemp line) as Hidem. rewrite Hline in Hidem.
  rewrite rstrip_app_nonspace in Hidem by done.
  apply app_inv_head in Hidem. rewrite (rstrip_nonspace c0 rest Hc0). exact Hidem.
Qed.

Lemma plain_line_step U lines raw c0 rest :
  strip (rstrip raw) = c0 :: rest →
  (c0 =? HASH)%N = false → ((c0 =? DASH)%N || (c0 =? STAR)%N) = false →
  isdecimal U c0 = false →
  startswith (c0 :: rest) fence = false →
  process_line U (false, lines) raw =
  let* wrapped := wrap_text (c0 :: rest) MAX_CHARS_PER_LINE in
  Returns (false, lines ++ wrapped).
Proof.
  intros Hstrip Hhash Hmark Hdigit Hfence.
  destruct (strip_cons_shape (rstrip raw) c0 rest Hstrip) as (ws & Hline & Hws & Hc0).
  rewrite rstrip_idemp in Hline.
  assert (Hhead : match_heading (rstrip raw) = None).
  { rewrite Hline. apply span_hash_none. destruct ws as [|w ws']; [done|].
    cbn in Hws. apply andb_prop in Hws as [Hw _]. by apply isspace_not_hash. }
  assert (Hbullet : match_bullet (rstrip raw) = None).
  { rewrite Hline. unfold match_bullet. rewrite span_app by done. by rewrite Hmark. }
  assert (Hnumbered : match_numbered U (rstrip raw) = None).
  { rewrite Hline. unfold match_numbered. rewrite span_app by done.
    cbn [span]. by rewrite Hdigit. }
  unfold process_line. rewrite Hstrip, Hhead, Hbullet, Hnumbered.
  unfold fence in Hfence. by rewrite Hfence.
Qed.

(** X12. Outside a code block, a line whose first character that is not
    white space is neither a hash sign, a dash, a star nor a decimal digit,
    and that does not start a fence, is a line of text: it is stripped and
    wrapped at the maximum width on its own, and its segments are appended
    as they are. The lines of a paragraph are not joined to one another. *)
Theorem text_line_rendering U (lines : list str) (raw : str) (c0 : char) (rest : str) :
  strip (rstrip raw) = c0 :: rest →
  (c0 =? HASH)%N = false → ((c0 =? DASH)%N || (c0 =? STAR)%N) = false →
  isdecimal U c0 = false →
  startswith (c0 :: rest) fence = false →
  ∃ first more,
    wrap_text (c0 :: rest) MAX_CHARS_PER_LINE = Returns (first :: more) ∧
    process_line U (false, lines) raw = Returns (false, lines ++ first :: more) ∧
    (TAB ∉ c0 :: rest → length (c0 :: rest) ≤ 94 → first :: more = [c0 :: rest]).
Proof.
  intros Hstrip Hhash Hmark Hdigit Hfence.
  rewrite (plain_line_step U lines raw c0 rest Hstrip Hhash Hmark Hdigit Hfence).
  destruct (wrap_text_returns (c0 :: rest) MAX_CHARS_PER_LINE)
    as (first & more & Hwrap & _); [done|].
  exists first, more. split; [done|]. split; [by rewrite Hwrap|].
  intros Htab Hlen.
  rewrite (wrap_text_fitting (c0 :: rest) MAX_CHARS_PER_LINE) in Hwrap.
  - by apply Returns_inj in Hwrap.
  - done.
  - rewrite <- Hstrip. apply rstrip_strip.
  - done.
  - unfold MAX_CHARS_PER_LINE, str, char in *. lia.
Qed.

Lemma text_line_rendering_witness :
  strip (rstrip (lit "  Some text. ")) = lit "Some text." ∧
  ∃ first more,
    wrap_text (lit "Some text.") MAX_CHARS_PER_LINE = Returns (first :: more) ∧
    process_line ascii_data (false, [lit "before"]) (lit "  Some text. ") =
      Returns (false, [lit "before"] ++ first :: more) ∧
    (TAB ∉ lit "Some text." → length (lit "Some text.") ≤ 94 →
     first :: more = [lit "Some text."]).
Proof.
  split; [reflexivity|].
  exact (text_line_rendering ascii_data [lit "before"] (lit "  Some text. ") 83%N
           (lit "ome text.") eq_refl eq_refl eq_refl eq_refl eq_refl).
Defined.

Example paragraph_lines_are_not_joined :
  markdown_to_lines ascii_data (lit "one" ++ [LF] ++ lit "two") =
  Returns [lit "one"; lit "two"].
Proof. vm_compute. reflexivity. Qed.

(** ** [paginate] and [build_page_stream] *)

(** X13. With a positive [lines_per_page], [paginate] returns
    [page_count] pages: one page for an empty document, and otherwise the
    number of lines divided by [lines_per_page], rounded up. The lengths of
    the pages add up to the number of lines, or to one for an empty
    document. *)
Theorem paginate_page_count (lines : list str) (lines_per_page : Z) :
  (0 < lines_per_page)%Z →
  ∃ pages,
    paginate lines lines_per_page = Returns pages ∧
    length pages = page_count (length lines) lines_per_page ∧
    1 ≤ length pages ∧
    (length pages - 1) * Z.to_nat lines_per_page < Nat.max 1 (length lines) ∧
    Nat.max 1 (length lines) ≤ length pages * Z.to_nat lines_per_page ∧
    length (concat pages) = Nat.max 1 (length lines).
Proof.
  intros Hpos.
  set (k := Z.to_nat lines_per_page).
  assert (Hk : 0 < k) by (unfold k; lia).
  destruct lines as [|l0 ls].
  { exists [[ [] ]]. cbn. repeat split; lia. }
  set (lines := l0 :: ls).
  assert (Hlen : 0 < length lines) by (cbn; lia).
  destruct (ceil_div_bounds k Hk (length lines) Hlen) as (Hup & Hlow & Hm).
  exists (chunks k ((length lines + k - 1) / k) lines).
  split; [|split; [|split; [|split; [|split]]]].
  - unfold paginate, py_range. fold lines.
    destruct (Z.eqb_spec lines_per_page 0) as [|_]; [lia|].
    destruct (Z.ltb_spec lines_per_page 0) as [|_]; [lia|].
    reflexivity.
  - by rewrite chunks_length.
  - rewrite chunks_length. lia.
  - rewrite chunks_length. lia.
  - rewrite chunks_length. lia.
  - rewrite chunks_concat by done. lia.
Qed.

Lemma paginate_page_count_witness :
  ∃ pages,
    paginate (replicate 107 (lit "line")) 53 = Returns pages ∧
    length pages = 3 ∧
    length (concat pages) = 107.
Proof.
  destruct (paginate_page_count (replicate 107 (lit "line")) 53 ltac:(lia))
    as (pages & Hpages & Hcount & _ & _ & _ & Hsum).
  exists pages. split; [exact Hpages|]. split; [exact Hcount|exact Hsum].
Defined.

(** X14. With lines to cut and a [lines_per_page] that is not positive,
    [paginate] keeps no line: a [lines_per_page] of zero raises
    [ValueError], as [range] does for a step of zero, and a negative one
    returns no page at all. Without lines the single page of one empty line
    is returned whatever [lines_per_page] is. *)
Theorem paginate_without_positive_length (lines : list str) (lines_per_page : Z) :
  (lines_per_page ≤ 0)%Z →
  (lines = [] → paginate lines lines_per_page = Returns [[ [] ]]) ∧
  (lines ≠ [] → lines_per_page = 0%Z →
   paginate lines lines_per_page = Raises ValueError) ∧
  (lines ≠ [] → (lines_per_page < 0)%Z → paginate lines lines_per_page = Returns []).
Proof.
  intros Hle. split; [by intros ->|]. split.
  - intros Hne ->. by destruct lines.
  - intros Hne Hneg. destruct lines as [|l0 ls]; [done|].
    unfold paginate, py_range.
    destruct (Z.eqb_spec lines_per_page 0) as [|_]; [lia|].
    destruct (Z.ltb_spec lines_per_page 0) as [_|]; [|lia].
    reflexivity.
Qed.

Lemma paginate_without_positive_length_witness :
  paginate [lit "a"; lit "b"] 0 = Raises ValueError ∧
  paginate [lit "a"; lit "b"] (-1) = Returns [] ∧
  paginate [] (-1) = Returns [[ [] ]].
Proof.
  destruct (paginate_without_positive_length [lit "a"; lit "b"] 0 ltac:(lia))
    as (_ & Hzero & _).
  destruct (paginate_without_positive_length [lit "a"; lit "b"] (-1) ltac:(lia))
    as (_ & _ & Hneg).
  destruct (paginate_without_positive_length [] (-1) ltac:(lia)) as (Hnil & _).
  split; [by apply Hzero|]. split; [by apply Hneg|by apply Hnil].
Defined.

Lemma join_terminated (sep : str) (parts : list str) :
  parts ≠ [] → join sep parts ++ sep = parts ≫= (λ part, part ++ sep).
Proof.
  induction parts as [|part parts IH]; [done|]. intros _.
  destruct parts as [|part' parts'].
  - cbn. by rewrite app_nil_r.
  - change (join sep (part :: part' :: parts'))
      with (part ++ sep ++ join sep (part' :: parts')).
    rewrite <- !app_assoc, IH by done. cbn [mbind list_bind]. by rewrite <- !app_assoc.
Qed.

Lemma latin1_bytes_bind {A} (f : A → str) (l : list A) :
  latin1_bytes (l ≫= f) = l ≫= (λ x, latin1_bytes (f x)).
Proof.
  induction l as [|x l IH]; [done|]. cbn. by rewrite latin1_bytes_app, IH.
Qed.

Lemma page_stream_bytes (page_lines : list str) :
  page_stream page_lines =
  STREAM_PROLOGUE ++ (page_lines ≫= line_bytes) ++ STREAM_EPILOGUE.
Proof.
  unfold page_stream. rewrite join_terminated by done.
  unfold page_commands. cbv zeta.
  rewrite !bind_app, !latin1_bytes_app. rewrite <- app_assoc.
  assert (Hlines : latin1_bytes ((page_lines ≫= line_commands) ≫= λ part, part ++ [LF]) =
                   page_lines ≫= line_bytes).
  { induction page_lines as [|line page_lines IH]; [done|].
    cbn [mbind list_bind]. rewrite !bind_app, !latin1_bytes_app, IH.
    f_equal. unfold line_commands, line_bytes. cbn [mbind list_bind].
    rewrite app_nil_r, !latin1_bytes_app. by rewrite <- !app_assoc. }
  apply (f_equal2 app); [vm_compute; reflexivity|].
  apply (f_equal2 app); [exact Hlines|vm_compute; reflexivity].
Qed.

(** X15. [build_page_stream] returns for every page, whatever characters
    its lines hold: the stream is the four commands that open the text
    object, then for each line in order the line, made Latin-1 and escaped,
    between parentheses before [Tj] and the command [T*], and then [ET].
    Every command ends in a line feed, so the stream of a page is the same
    prologue and epilogue around the bytes of its lines, and the bytes of a
    line do not depend on the lines around it. *)
Theorem page_stream_layout (page_lines : list str) :
  build_page_stream page_lines =
    Returns (STREAM_PROLOGUE ++ (page_lines ≫= line_bytes) ++ STREAM_EPILOGUE) ∧
  ∀ before line after,
    page_lines = before ++ line :: after →
    build_page_stream page_lines =
      Returns ((STREAM_PROLOGUE ++ (before ≫= line_bytes))
               ++ line_bytes line
               ++ ((after ≫= line_bytes) ++ STREAM_EPILOGUE)) ∧
    length (line_bytes line) = length (pdf_escape (to_latin1 line)) + 9.
Proof.
  rewrite build_page_stream_returns, page_stream_bytes. split; [done|].
  intros before line after ->. split.
  - rewrite bind_app. cbn [mbind list_bind]. by rewrite <- !app_assoc.
  - unfold line_bytes. rewrite !length_app, latin1_bytes_length, !length_app.
    cbn [length]. unfold str, char, bytes in *.
    change (length (blit "T*")) with 2. change (length (lit "(")) with 1.
    change (length (lit ") Tj")) with 4. lia.
Qed.

Lemma page_stream_layout_witness :
  build_page_stream [lit "a(b"; lit "c"] =
    Returns ((STREAM_PROLOGUE ++ ([lit "a(b"] ≫= line_bytes))
             ++ line_bytes (lit "c") ++ (([] ≫= line_bytes) ++ STREAM_EPILOGUE)) ∧
  length (line_bytes (lit "c")) = length (pdf_escape (to_latin1 (lit "c"))) + 9.
Proof.
  destruct (page_stream_layout [lit "a(b"; lit "c"]) as [_ Hline].
  exact (Hline [lit "a(b"] (lit "c") [] eq_refl).
Defined.

Example page_stream_of_one_line :
  build_page_stream [lit "a(b"] =
  Returns (blit "BT" ++ [NL] ++ blit "/F1 10 Tf" ++ [NL]
           ++ blit "1 0 0 1 50 792 Tm" ++ [NL] ++ blit "14 TL" ++ [NL]
           ++ blit "(a\(b) Tj" ++ [NL] ++ blit "T*" ++ [NL] ++ blit "ET" ++ [NL]).
Proof. vm_compute. reflexivity. Qed.

(** ** [generate_pdf]: where the objects stand *)

Lemma object_record_length id data : 0 < length (object_record id data).
Proof.
  unfold object_record. rewrite !length_app. cbn [length]. lia.
Qed.

Lemma object_offset_S pages id :
  1 ≤ id →
  object_offset pages (S id) =
  object_offset pages id + length (object_record id (object_body pages id)).
Proof.
  intros Hid. unfold object_offset. replace (S id - 1) with (S (id - 1)) by lia.
  rewrite seq_S. replace (1 + (id - 1)) with id by lia.
  unfold object_records. rewrite fmap_app, concat_app. cbn [fmap list_fmap concat].
  rewrite app_nil_r, !length_app. unfold bytes in *. lia.
Qed.

Lemma object_offset_lt pages i j :
  1 ≤ i → i < j → object_offset pages i < object_offset pages j.
Proof.
  intros Hi Hij. induction Hij as [|j Hij IH].
  - rewrite object_offset_S by done.
    pose proof (object_record_length i (object_body pages i)). lia.
  - rewrite object_offset_S by lia.
    pose proof (object_record_length j (object_body pages j)). lia.
Qed.

Lemma body_at_object pages id :
  1 ≤ id ≤ 2 * length pages + 3 →
  drop (object_offset pages id)
    (PDF_HEADER ++ object_records pages (seq 1 (2 * length pages + 3))) =
  object_record id (object_body pages id)
  ++ object_records pages (seq (S id) (2 * length pages + 3 - id)).
Proof.
  intros Hid. unfold object_offset.
  rewrite (seq_split_at 1 (2 * length pages + 3) (id - 1)) by lia.
  replace (1 + (id - 1)) with id by lia.
  replace (1 + S (id - 1)) with (S id) by lia.
  replace (2 * length pages + 3 - S (id - 1)) with (2 * length pages + 3 - id) by lia.
  unfold object_records. rewrite fmap_app, concat_app. cbn [fmap list_fmap concat].
  rewrite !app_assoc. rewrite <- !(app_assoc (PDF_HEADER ++ _)).
  by rewrite drop_app_length.
Qed.

Lemma write_body_objects pages l id :
  write_body pages = Returns l → 1 ≤ id ≤ 2 * length pages + 3 →
  objects (allocated l) !! id = Some (object_body pages id).
Proof.
  intros Hrun Hid.
  destruct (write_body_spec pages) as (l' & Hrun' & _ & _ & Hobjects & _).
  rewrite Hrun in Hrun'. apply Returns_inj in Hrun' as <-. by apply Hobjects.
Qed.

(** X16. The objects stand back to back behind the header of the file.
    Object 1 starts at offset 15, behind the two lines of the header; at the
    offset recorded for an object stands its whole record, [<id> 0 obj], the
    body kept for it and [endobj]; the next object starts where the record
    ends, and the record of the last object ends where the cross-reference
    section starts. So the offsets grow with the object number, and the
    entry of object 0 keeps the offset 0. *)
Theorem objects_back_to_back (pages : list (list str)) :
  let max_id := 2 * length pages + 3 in
  ∃ l,
    write_body pages = Returns l ∧
    length (offsets l) = max_id + 1 ∧
    offsets l !! 0 = Some 0 ∧
    offsets l !! 1 = Some 15 ∧
    take 15 (body l) = PDF_HEADER ∧
    (∀ id offset data,
       1 ≤ id ≤ max_id →
       offsets l !! id = Some offset →
       objects (allocated l) !! id = Some data →
       take (length (object_record id data)) (drop offset (body l)) =
         object_record id data ∧
       (id < max_id →
        offsets l !! S id = Some (offset + length (object_record id data))) ∧
       (id = max_id → length (body l) = offset + length (object_record id data))) ∧
    ∀ i j offset_i offset_j,
      1 ≤ i → i < j → j ≤ max_id →
      offsets l !! i = Some offset_i → offsets l !! j = Some offset_j →
      offset_i < offset_j < length (body l).
Proof.
  intros max_id.
  destruct (write_body_spec pages)
    as (l & Hrun & _ & _ & Hobjects & Hbody & Hlen & Hzero & Hoffsets).
  fold max_id in Hobjects, Hbody, Hoffsets.
  assert (Hend : length (body l) = object_offset pages (S max_id)).
  { rewrite Hbody. unfold object_offset. by replace (S max_id - 1) with max_id by lia. }
  exists l. split; [done|]. split; [subst max_id; lia|]. split; [done|].
  split; [by rewrite (Hoffsets 1) by lia|].
  split; [by rewrite Hbody|].
  split.
  - intros id offset data Hid Hoffset Hdata.
    rewrite (Hoffsets id Hid) in Hoffset. apply (inj Some) in Hoffset as <-.
    rewrite (Hobjects id Hid) in Hdata. apply (inj Some) in Hdata as <-.
    split; [|split].
    + rewrite Hbody. subst max_id. rewrite body_at_object by done.
      by rewrite take_app_length.
    + intros Hlt. rewrite (Hoffsets (S id)) by lia. f_equal.
      apply object_offset_S. lia.
    + intros ->. rewrite Hend. apply object_offset_S. lia.
  - intros i j offset_i offset_j Hi Hij Hj Hoffset_i Hoffset_j.
    rewrite (Hoffsets i) in Hoffset_i by lia. apply (inj Some) in Hoffset_i as <-.
    rewrite (Hoffsets j) in Hoffset_j by lia. apply (inj Some) in Hoffset_j as <-.
    rewrite Hend. split; apply object_offset_lt; lia.
Qed.

Lemma objects_back_to_back_witness :
  ∃ l,
    write_body [[lit "a"]] = Returns l ∧
    length (offsets l) = 6 ∧
    offsets l !! 1 = Some 15 ∧
    offsets l !! 2 = Some (15 + length (object_record 1 CATALOG_OBJECT)) ∧
    ∀ offset_3 offset_5,
      offsets l !! 3 = Some offset_3 → offsets l !! 5 = Some offset_5 →
      offset_3 < offset_5 < length (body l).
Proof.
  destruct (objects_back_to_back [[lit "a"]])
    as (l & Hrun & Hlen & _ & Hone & _ & Hrecord & Hgrow).
  pose proof (write_body_objects [[lit "a"]] l 1 Hrun ltac:(cbn; lia)) as Hcatalog.
  change (object_body [[lit "a"]] 1) with CATALOG_OBJECT in Hcatalog.
  destruct (Hrecord 1 15 CATALOG_OBJECT ltac:(cbn; lia) Hone Hcatalog) as (_ & Hnext & _).
  exists l. split; [exact Hrun|]. split; [exact Hlen|]. split; [exact Hone|].
  split; [apply Hnext; cbn; lia|].
  intros offset_3 offset_5. apply Hgrow; cbn; lia.
Defined.

(** ** [main] *)

Lemma paginate_not_nil lines (lines_per_page : Z) pages :
  (0 < lines_per_page)%Z → paginate lines lines_per_page = Returns pages →
  1 ≤ length pages.
Proof.
  intros Hpos Hrun. destruct lines as [|l0 ls].
  { apply Returns_inj in Hrun as <-. cbn. lia. }
  unfold paginate, py_range in Hrun.
  destruct (Z.eqb_spec lines_per_page 0) as [|_]; [lia|].
  destruct (Z.ltb_spec lines_per_page 0) as [|_]; [lia|].
  apply Returns_inj in Hrun as <-. rewrite !length_fmap, length_seq.
  assert (Hk : 0 < Z.to_nat lines_per_page) by lia.
  destruct (ceil_div_bounds (Z.to_nat lines_per_page) Hk (length (l0 :: ls)))
    as (_ & _ & Hm); [cbn; lia|]. exact Hm.
Qed.

(** X17. What a run of [main] leaves behind. A write is tried at most
    once, before anything is printed, to the path given as the second
    argument, and only when the input was read, formatted, cut into pages
    and turned into the bytes of the whole file: no part of a file is
    written. When an exception ends the run nothing has been printed. When
    [main] returns, it returns 0 or 1 and the last thing it did was to print
    a message. The confirmation is printed only when the write succeeded,
    [main] then returns 0, and the number of pages it names is at least
    one. *)
Theorem main_trace U (env : environment) (argv : list str) (trace : list event)
    (result : outcome Z) :
  main U env argv = (trace, result) →
  (∀ i path data,
     trace !! i = Some (Written path data) →
     i = 0 ∧ argv !! 2 = Some path ∧ length argv = 3 ∧
     ∃ input_path markdown lines pages,
       argv !! 1 = Some input_path ∧
       path_exists env input_path = Returns true ∧
       read_text env input_path = Returns markdown ∧
       markdown_to_lines U markdown = Returns lines ∧
       paginate lines 53 = Returns pages ∧
       generate_pdf pages = Returns data) ∧
  (∀ e, result = Raises e → Forall (λ ev, ∀ m, ev ≠ Printed m) trace) ∧
  (∀ code, result = Returns code →
     (code = 0 ∨ code = 1)%Z ∧ ∃ m, last trace = Some (Printed m)) ∧
  (∀ path n,
     Printed (PdfGenerated path n) ∈ trace →
     result = Returns 0%Z ∧ 1 ≤ n ∧
     ∃ data,
       trace = [Written path data; Printed (PdfGenerated path n)] ∧
       write_bytes env path data = Returns tt).
Proof.
  intros Hrun.
  destruct (main_cases U env argv)
    as [(failure & Hmain & Hfailure)|[(Hlen & _ & Hmain)|(a0 & a1 & a2 & -> &
          [(Hexists & _ & Hmain)|
           (Hexists & markdown & lines & pages & output & Hread & Hlines & Hpages &
            Houtput & [(Hwrite & _ & Hmain)|(failure & Hmain & Hfailure)])])]];
    rewrite Hmain in Hrun; injection Hrun as <- <-.
  - split; [|split; [|split]].
    + intros [|i] path data; discriminate.
    + intros e _. apply Forall_nil_2.
    + intros code ->. by destruct (Hfailure code).
    + intros path n Hin. by apply elem_of_nil in Hin.
  - split; [|split; [|split]].
    + intros [|[|i]] path data; discriminate.
    + discriminate.
    + intros code [= <-]. split; [by right|by eexists].
    + intros path n Hin. by apply list_elem_of_singleton in Hin as [=].
  - split; [|split; [|split]].
    + intros [|[|i]] path data; discriminate.
    + discriminate.
    + intros code [= <-]. split; [by right|by eexists].
    + intros path n Hin. by apply list_elem_of_singleton in Hin as [=].
  - split; [|split; [|split]].
    + intros [|[|[|i]]] path data; try discriminate. intros [= <- <-].
      do 3 (split; [done|]). by exists a1, markdown, lines, pages.
    + discriminate.
    + intros code [= <-]. split; [by left|by eexists].
    + intros path n Hin. apply elem_of_cons in Hin as [[=]|Hin].
      apply list_elem_of_singleton in Hin as [= -> ->].
      split; [done|]. split; [by apply (paginate_not_nil lines 53)|].
      by exists output.
  - split; [|split; [|split]].
    + intros [|[|i]] path data; try discriminate. intros [= <- <-].
      do 3 (split; [done|]). by exists a1, markdown, lines, pages.
    + intros e _. apply Forall_singleton. by intros m.
    + intros code ->. by destruct (Hfailure code).
    + intros path n Hin. by apply list_elem_of_singleton in Hin as [=].
Qed.

Lemma main_trace_witness :
  ∃ trace data,
    main ascii_data hello_environment [lit "main"; lit "in.md"; lit "out.pdf"] =
      (trace, Returns 0%Z) ∧
    trace = [Written (lit "out.pdf") data; Printed (PdfGenerated (lit "out.pdf") 1)] ∧
    write_bytes hello_environment (lit "out.pdf") data = Returns tt.
Proof.
  assert (Hrun : main ascii_data hello_environment
                   [lit "main"; lit "in.md"; lit "out.pdf"] =
                 ([Written (lit "out.pdf") (pdf_file [[lit "hello"]]);
                   Printed (PdfGenerated (lit "out.pdf") 1)], Returns 0%Z)).
  { unfold main, run_then, pure, act.
    cbn [path_exists read_text write_bytes print_message hello_environment negb fst snd].
    change (markdown_to_lines ascii_data (lit "hello")) with (Returns [lit "hello"]).
    cbn [fst snd].
    change (paginate [lit "hello"] (Z.of_nat LINES_PER_PAGE))
      with (Returns [[lit "hello"]]).
    cbn [fst snd]. rewrite generate_pdf_returns. reflexivity. }
  destruct (main_trace ascii_data hello_environment
              [lit "main"; lit "in.md"; lit "out.pdf"] _ _ Hrun)
    as (_ & _ & _ & Hconfirmed).
  destruct (Hconfirmed (lit "out.pdf") 1) as (_ & _ & data & Htrace & Hwrite).
  { apply list_elem_of_further, list_elem_of_here. }
  exists [Written (lit "out.pdf") (pdf_file [[lit "hello"]]);
          Printed (PdfGenerated (lit "out.pdf") 1)], data.
  split; [exact Hrun|]. split; [exact Htrace|exact Hwrite].
Defined.

(** ** [wrap_text]: where no line ends in white space *)

Lemma word_not_blank chunk : is_word chunk → is_blank chunk = false.
Proof.
  intros [Hne Hword]. destruct chunk as [|c chunk]; [done|].
  cbn in *. apply andb_prop in Hword as [Hc _]. by destruct (isspace c).
Qed.

Lemma wrap_space_blank chunk : forallb is_wrap_space chunk = true → is_blank chunk = true.
Proof.
  unfold is_blank. rewrite !forallb_forall. intros H c Hc.
  by apply is_wrap_space_isspace, H.
Qed.

Lemma alternating_app width l1 : ∀ blank l2,
  alternating width blank (l1 ++ l2) →
  alternating width blank l1 ∧ ∃ blank2, alternating width blank2 l2.
Proof.
  induction l1 as [|chunk l1 IH]; intros blank l2 H.
  - split; [done|]. by exists blank.
  - cbn in H. destruct H as (Hne & Hkind & Hrest).
    apply IH in Hrest as [H1 H2]. by split.
Qed.

Lemma alternating_elem width l : ∀ blank chunk,
  alternating width blank l → chunk ∈ l → is_blank chunk = false → is_word chunk.
Proof.
  induction l as [|x l IH]; intros blank chunk H Hin Hblank;
    [by apply elem_of_nil in Hin|].
  cbn in H. destruct H as (Hne & Hkind & Hrest).
  apply elem_of_cons in Hin as [->|Hin]; [|by apply (IH (negb blank))].
  destruct blank; [|by destruct Hkind].
  by rewrite (wrap_space_blank x Hkind) in Hblank.
Qed.

(** The chunk before a run of white space is a word. *)
Lemma alternating_before_blank width l : ∀ blank chunk rest,
  alternating width blank (l ++ chunk :: rest) → is_blank chunk = true →
  ∀ before, last l = Some before → is_word before.
Proof.
  induction l as [|x l IH]; intros blank chunk rest H Hblank before Hlast; [done|].
  destruct l as [|y l'].
  - injection Hlast as <-. cbn in H. destruct H as (Hne & Hkind & _ & Hkind2 & _).
    destruct blank; cbn in Hkind2; [|by destruct Hkind].
    destruct Hkind2 as [Hword _]. by rewrite (word_not_blank chunk Hword) in Hblank.
  - rewrite last_cons_cons in Hlast. cbn [app alternating] in H.
    destruct H as (_ & _ & Hrest).
    exact (IH (negb blank) chunk rest Hrest Hblank before Hlast).
Qed.

Lemma concat_ends_in_word (l : list str) chunk :
  last l = Some chunk → is_word chunk → rstrip (concat l) = concat l.
Proof.
  intros Hlast [Hne Hword]. apply last_Some in Hlast as [l' ->].
  rewrite concat_app. cbn [concat]. rewrite app_nil_r.
  apply last_is_Some in Hne as [x Hx]. apply last_Some in Hx as [chunk' ->].
  rewrite forallb_app in Hword. apply andb_prop in Hword as [_ Hx]. cbn in Hx.
  rewrite app_assoc. rewrite rstrip_app_nonspace; [done|]. by destruct (isspace x).
Qed.

Lemma wrap_line_stripped width blank chunks lines chunks' lines' :
  1 ≤ width → alternating width blank chunks → Forall no_trailing_space lines →
  wrap_line width chunks lines = (chunks', lines') →
  (∃ blank', alternating width blank' chunks') ∧ Forall no_trailing_space lines'.
Proof.
  intros Hw Halt Hlines. unfold wrap_line.
  set (chunks1 := match chunks with
                  | chunk :: rest =>
                      if is_blank chunk && bool_decide (lines ≠ []) then rest else chunks
                  | [] => chunks
                  end).
  assert (H1 : ∃ blank1, alternating width blank1 chunks1).
  { subst chunks1. destruct chunks as [|chunk rest]; [by exists blank|].
    destruct (is_blank chunk && bool_decide (lines ≠ [])); [|by exists blank].
    cbn in Halt. destruct Halt as (_ & _ & Hrest). by exists (negb blank). }
  destruct H1 as [blank1 H1].
  destruct (fill_line width chunks1 [] 0) as [[chunks2 cur_line] cur_len] eqn:Hfill.
  apply fill_line_spec in Hfill as (taken & Hchunks1 & Hcur & Hlen & Hle & Hnext); [|lia].
  cbn in Hcur, Hlen. subst cur_line cur_len. rewrite Hchunks1 in H1.
  destruct (alternating_app _ _ _ _ H1) as [Htaken [blank2 H2]].
  set (step := match chunks2 with
               | chunk :: _ =>
                   if width <? length chunk
                   then handle_long_word chunks2 taken (length (concat taken)) width
                   else (chunks2, taken)
               | [] => (chunks2, taken)
               end).
  assert (H3 : (∃ blank3, alternating width blank3 step.1) ∧
               (step.2 = taken ∨
                ∃ piece, step.2 = taken ++ [piece] ∧ is_blank piece = true ∧
                         ∀ before, last taken = Some before → is_word before)).
  { subst step. destruct chunks2 as [|chunk rest]; [split; [by exists blank2|by left]|].
    destruct (Nat.ltb_spec width (length chunk)) as [Hlong|Hshort];
      [|split; [by exists blank2|by left]].
    unfold handle_long_word. destruct (Nat.ltb_spec width 1) as [|_]; [lia|].
    cbn [fst snd]. cbn in H2. destruct H2 as (Hne & Hkind & Hrest).
    destruct blank2; [|destruct Hkind; lia].
    split.
    - exists true. cbn. split; [|split; [by apply forallb_drop|done]].
      intros Hnil. apply (f_equal length) in Hnil. rewrite length_drop in Hnil.
      cbn in Hnil. lia.
    - right. eexists. split; [done|].
      split; [by apply wrap_space_blank, forallb_take|].
      apply (alternating_before_blank width taken blank1 chunk rest H1).
      by apply wrap_space_blank. }
  destruct step as [chunks3 cur_line1]. cbn [fst snd] in H3.
  destruct H3 as [H3 Hline1].
  set (cur_line2 := match last cur_line1 with
                    | Some chunk => if is_blank chunk then removelast cur_line1 else cur_line1
                    | None => cur_line1
                    end).
  assert (H4 : cur_line2 = [] ∨ ∃ chunk, last cur_line2 = Some chunk ∧ is_word chunk).
  { subst cur_line2. destruct Hline1 as [->|(piece & -> & Hpiece & Hbefore)].
    - destruct (last taken) as [chunk|] eqn:Hlast; [|left; by apply last_None].
      destruct (is_blank chunk) eqn:Hblank.
      + apply last_Some in Hlast as [l' ->]. rewrite removelast_last.
        destruct (last l') as [before|] eqn:Hl'; [|left; by apply last_None].
        right. exists before. split; [done|].
        by apply (alternating_before_blank width l' blank1 chunk [] Htaken Hblank).
      + right. exists chunk. split; [done|].
        apply (alternating_elem width taken blank1); [done| |done].
        apply last_Some in Hlast as [l' ->].
        apply elem_of_app. right. apply list_elem_of_here.
    - rewrite last_snoc, Hpiece, removelast_last.
      destruct (last taken) as [before|] eqn:Hlast; [|left; by apply last_None].
      right. exists before. split; [done|]. by apply Hbefore. }
  intros H. destruct cur_line2 as [|c2 cl2] eqn:E2.
  - injection H as <- <-. by split.
  - injection H as <- <-. split; [done|]. apply Forall_app. split; [done|].
    apply Forall_singleton. destruct H4 as [|(chunk & Hlast & Hword)]; [done|].
    by apply (concat_ends_in_word (c2 :: cl2) chunk).
Qed.

Lemma wrap_chunks_loop_stripped width fuel : ∀ blank chunks lines result,
  1 ≤ width → alternating width blank chunks → Forall no_trailing_space lines →
  wrap_chunks_loop fuel width chunks lines = Returns result →
  Forall no_trailing_space result.
Proof.
  induction fuel as [|fuel IH]; intros blank chunks lines result Hw Halt Hlines Hrun.
  - destruct chunks as [|c rest]; [|done]. by apply Returns_inj in Hrun as <-.
  - destruct chunks as [|c rest]; [by apply Returns_inj in Hrun as <-|].
    cbn [wrap_chunks_loop] in Hrun.
    destruct (wrap_line width (c :: rest) lines) as [chunks' lines'] eqn:Hline.
    destruct (wrap_line_stripped _ _ _ _ _ _ Hw Halt Hlines Hline) as [[blank' Halt'] Hlines'].
    by apply (IH blank' chunks' lines' result).
Qed.

Lemma plain_not_space c :
  implb (isspace c) (is_wrap_space c) = true → is_wrap_space c = false →
  negb (isspace c) = true.
Proof. intros H Hc. rewrite Hc in H. by destruct (isspace c). Qed.

Lemma split_chunks_alternating width (s : str) :
  plain_spaces s = true → longest_word s ≤ width →
  match s with
  | [] => split_chunks s = []
  | c :: _ =>
      ∃ chunk rest,
        split_chunks s = (c :: chunk) :: rest ∧
        alternating width (is_wrap_space c) ((c :: chunk) :: rest) ∧
        (is_wrap_space c = false → S (length chunk) = word_prefix s)
  end.
Proof.
  induction s as [|c s IH]; [done|]. intros Hplain Hlong.
  cbn [plain_spaces forallb] in Hplain. apply andb_prop in Hplain as [Hc Hplain].
  assert (Hns : is_wrap_space c = false → negb (isspace c) = true)
    by (intros Hkind; by apply plain_not_space).
  clear Hc. cbn [longest_word] in Hlong.
  specialize (IH Hplain ltac:(lia)). cbn [split_chunks].
  destruct s as [|d s'].
  - exists [], []. split; [done|]. cbn [word_prefix] in *.
    destruct (is_wrap_space c) eqn:Hkind; (split; [|done]); cbn.
    + by rewrite Hkind.
    + unfold is_word. cbn [forallb]. rewrite (Hns eq_refl).
      repeat split; (done || lia).
  - destruct IH as (chunk & rest & -> & Halt & Hlen).
    cbn [alternating] in Halt. destruct Halt as (_ & Hkind_d & Hrest).
    cbn [word_prefix] in Hlong, Hlen |- *.
    destruct (is_wrap_space c) eqn:Hkc; destruct (is_wrap_space d) eqn:Hkd; cbn [Bool.eqb].
    + exists (d :: chunk), rest. split; [done|]. split; [|done].
      cbn [alternating forallb]. rewrite Hkc. by repeat split.
    + exists [], ((d :: chunk) :: rest). split; [done|]. split; [|done].
      destruct Hkind_d as [[_ Hword] Hlen_d].
      cbn [alternating forallb negb]. rewrite Hkc. by repeat split.
    + exists [], ((d :: chunk) :: rest). split; [done|]. split; [|done].
      cbn [alternating length]. unfold is_word. cbn [forallb negb].
      rewrite (Hns eq_refl). repeat split; (done || lia).
    + exists (d :: chunk), rest. split; [done|]. specialize (Hlen eq_refl).
      destruct Hkind_d as [[_ Hword] Hlen_d]. split; [|by intros _; cbn; rewrite Hlen].
      cbn [alternating length]. unfold is_word. cbn [forallb] in Hword |- *.
      rewrite (Hns eq_refl). cbn [length] in Hlen. repeat split; (done || lia).
Qed.

Lemma word_prefix_spaces k t : 0 < k → word_prefix (replicate k SPACE ++ t) = 0.
Proof. by destruct k; [lia|]. Qed.

Lemma longest_word_spaces k t : longest_word (replicate k SPACE ++ t) = longest_word t.
Proof. induction k as [|k IH]; [done|]. cbn [replicate app longest_word word_prefix]. by rewrite IH. Qed.

Lemma tab_width tabsize col : 0 < tabsize → 0 < tabsize - col mod tabsize.
Proof. intros H. pose proof (Nat.mod_upper_bound col tabsize). lia. Qed.

Lemma word_prefix_expandtabs tabsize s : ∀ col,
  0 < tabsize → word_prefix (expandtabs_from tabsize col s) = word_prefix s.
Proof.
  induction s as [|c s IH]; intros col Htab; [done|]. cbn [expandtabs_from].
  destruct (N.eqb_spec c TAB) as [->|_].
  - by rewrite word_prefix_spaces by by apply tab_width.
  - destruct ((c =? LF)%N || (c =? CR)%N); cbn [word_prefix]; by rewrite IH.
Qed.

Lemma longest_word_expandtabs tabsize s : ∀ col,
  0 < tabsize → longest_word (expandtabs_from tabsize col s) = longest_word s.
Proof.
  induction s as [|c s IH]; intros col Htab; [done|]. cbn [expandtabs_from].
  destruct (N.eqb_spec c TAB) as [->|_].
  - rewrite longest_word_spaces, IH by done. reflexivity.
  - destruct ((c =? LF)%N || (c =? CR)%N); cbn [longest_word word_prefix];
      by rewrite IH, word_prefix_expandtabs.
Qed.

Lemma plain_spaces_expandtabs tabsize s : ∀ col,
  plain_spaces s = true → plain_spaces (expandtabs_from tabsize col s) = true.
Proof.
  unfold plain_spaces.
  induction s as [|c s IH]; intros col H; [done|].
  cbn [forallb] in H. apply andb_prop in H as [Hc Hs]. cbn [expandtabs_from].
  destruct (c =? TAB)%N.
  - rewrite forallb_app, (IH _ Hs), andb_true_r.
    generalize (tabsize - col mod tabsize). intros k.
    induction k as [|k IHk]; [done|]. cbn. exact IHk.
  - destruct ((c =? LF)%N || (c =? CR)%N); cbn [forallb]; rewrite Hc; by apply IH.
Qed.

(** X19. A line that [wrap_text] returns does not end in white space when
    the text holds no white space other than [textwrap]'s own (space, tab,
    line feed, vertical tab, form feed, carriage return) and none of its
    words is longer than the width. So trailing white space in a segment
    takes a word that has to be broken or a white space that [textwrap] does
    not split at. *)
Theorem wrap_text_strips (text : str) (width : Z) (lines : list str) :
  (0 < width)%Z → plain_spaces text = true → longest_word text ≤ Z.to_nat width →
  wrap_text text width = Returns lines →
  Forall no_trailing_space lines.
Proof.
  intros Hwidth Hplain Hlong. unfold wrap_text, textwrap_wrap.
  destruct (Z.leb_spec width 0) as [|_]; [lia|].
  destruct (wrap_chunks_loop _ _ _ _) as [wrapped| |] eqn:Hloop; [|done|done].
  cbn [and_then]. intros <-%Returns_inj.
  assert (Hwrapped : Forall no_trailing_space wrapped).
  { pose proof (split_chunks_alternating (Z.to_nat width) (expandtabs 8 text)) as Hsplit.
    unfold expandtabs in *.
    rewrite longest_word_expandtabs in Hsplit by lia.
    specialize (Hsplit (plain_spaces_expandtabs 8 text 0 Hplain) Hlong).
    destruct (expandtabs_from 8 0 text) as [|c expanded] eqn:Hexpanded.
    - rewrite Hsplit in Hloop. destruct (wrap_measure []); by apply Returns_inj in Hloop as <-.
    - destruct Hsplit as (chunk & rest & Hchunks & Halt & _). rewrite Hchunks in Hloop.
      assert (Hw : 1 ≤ Z.to_nat width) by lia.
      exact (wrap_chunks_loop_stripped _ _ _ _ _ _ Hw Halt (Forall_nil_2 _) Hloop). }
  destruct wrapped; [by apply Forall_singleton|done].
Qed.

Lemma wrap_text_strips_witness :
  plain_spaces (lit "one  two   three ") = true ∧
  longest_word (lit "one  two   three ") = 5 ∧
  wrap_text (lit "one  two   three ") 5 = Returns [lit "one"; lit "two"; lit "three"] ∧
  Forall no_trailing_space [lit "one"; lit "two"; lit "three"].
Proof.
  split; [reflexivity|]. split; [reflexivity|].
  assert (Hrun : wrap_text (lit "one  two   three ") 5 =
                 Returns [lit "one"; lit "two"; lit "three"]) by (vm_compute; reflexivity).
  split; [exact Hrun|].
  apply (wrap_text_strips (lit "one  two   three ") 5); [lia|reflexivity| |exact Hrun].
  vm_compute. lia.
Defined.

Example wrap_text_keeps_space_before_long_word :
  longest_word (lit "ab  cdefg") = 5 ∧
  wrap_text (lit "ab  cdefg") 4 = Returns [lit "ab  "; lit "cdef"; lit "g"].
Proof. split; vm_compute; reflexivity. Qed.
